(** * node-red-contrib-unifi-os: session manager and shared realtime channel

    A shallow embedding of [src/nodes/AccessController.ts] (the node that
    logs in to the controller, caches the session cookie and issues
    authenticated requests) and of the [SharedProtectWebSocket] class (the
    one websocket per controller whose frames are fanned out to registered
    interests).

    JavaScript runs every callback to completion on one event loop.  A state
    of the embedding is the state of the node between two callbacks; an
    [Event] is one callback being run (an API call, an Axios promise being
    settled, a timer firing, the node being closed), and which callback runs
    next, and with what answer, is up to the environment.  Calls that leave
    the process (Axios, setTimeout, the event emitter) are appended to an
    effect log, so that "a login call is issued" is a statement about that
    log.  A promise is an entry of a table: its state, the code chained on
    it, and where the loop that will settle it stands.  Log output
    ([log.debug] and friends) is not part of the state.

    The file has the embedding first (imported declarations, the node, the
    channel, a sample installation), then the properties of the session
    manager, of the channel, and their instances on the sample. *)

From Stdlib Require Import ZArith Ascii String.
From stdpp Require Import gmap strings list.

Local Open Scope Z_scope.
Local Open Scope string_scope.
Local Open Scope list_scope.

(** ** Imported declarations *)

(** Modelled from the spec: [types/ControllerType] is imported by the
    sources but not part of them.  The spec names two controller variants,
    the OS console (the default the node falls back to) and the legacy one. *)
Inductive ControllerType := UniFiOSConsole | UniFiNetworkApplication.

Record LoginEndpoint := { login_url : string; login_retry : Z }.

(** The [endpoints] table of [../Endpoints]: its shape is fixed by the way
    the sources index it, its contents are a parameter of the development. *)
Class EndpointTable := {
  protocol_base : string;
  protocol_webSocket : string;
  login : ControllerType -> LoginEndpoint;
  logout_url : ControllerType -> string }.

(** [types/AccessControllerNodeConfigType.ts] *)
Record AccessControllerNodeConfigType := {
  name : string;
  controllerIp : string;
  controllerPort : option string;
  controllerType : option ControllerType }.

Record Credentials := { username : string; password : string }.

(** An opaque JSON document (a response body, a request body). *)
Definition UnifiResponse := string.

(** ** JavaScript values the code tests *)

(** [!s] for an optional string: [undefined] and [''] are falsy. *)
Definition truthy (s : option string) : bool :=
  match s with
  | Some EmptyString => false
  | Some _ => true
  | None => false
  end.

(** String concatenation turns [undefined] into the text "undefined". *)
Definition js_string (s : option string) : string :=
  match s with Some x => x | None => "undefined" end.

Definition is_white_space (c : ascii) : bool :=
  match nat_of_ascii c with
  | 9%nat | 10%nat | 11%nat | 12%nat | 13%nat | 32%nat => true
  | _ => false
  end.

Fixpoint trim_start (l : list ascii) : list ascii :=
  match l with
  | c :: l' => if is_white_space c then trim_start l' else l
  | [] => []
  end.

(** [String.prototype.trim] on the ASCII white space characters. *)
Definition trim (s : string) : string :=
  string_of_list_ascii
    (rev (trim_start (rev (trim_start (list_ascii_of_string s))))).

Definition bootstrapURI : string := "/proxy/protect/api/bootstrap".

(** The errors the code creates or inspects: [new Error(message)], the
    [HttpError] of [../types/HttpError] with its [status], and any other
    rejection (an [AxiosError], an abort), known by its [name]. *)
Inductive JsError :=
| Error (message : string)
| HttpError (status : Z) (message : string)
| OtherError (errname : string).

Record AxiosResponse := {
  status : Z;
  set_cookie : option (list string);
  data : UnifiResponse }.

(** How the promise of an Axios call is settled. *)
Inductive Settled :=
| Fulfilled (response : AxiosResponse)
| RejectedWith (reason : JsError).

Inductive PromiseState (A : Type) :=
| Pending
| Resolved (value : A)
| Rejected (reason : JsError).
Arguments Pending {A}.
Arguments Resolved {A} value.
Arguments Rejected {A} reason.

(** ** The node and its pending work *)

(** What runs when the promise of [getAuthCookie] resolves: nothing of this
    file (an outside caller holds the promise), the [then] of [refresh], or
    the rest of [axiosRequest] behind its [await]. *)
Inductive CookieThen :=
| ThenCaller
| ThenRefresh (init : option bool)
| ThenAxiosRequest (req : nat).

(** What runs when the promise of [request] settles: an outside caller, or
    the handlers of [getBootstrap]. *)
Inductive RequestThen :=
| RequestCaller
| RequestBootstrap.

Inductive Phase :=
| Idle
| InFlight
| Scheduled (delay : Z).

(** One call of [getAuthCookie]: the promise it returned, who waits for it,
    and where its [authenticateWithRetry] loop stands (an Axios.post in
    flight, a setTimeout pending, or neither). *)
Record LoginLoop := {
  ll_promise : PromiseState (option string);
  ll_then : CookieThen;
  ll_phase : Phase }.

Inductive RequestPhase :=
| RIdle
| RAwaitCookie (loop : nat)
| RInFlight
| RScheduled (delay : Z).

(** One call of [request]: the arguments its closure captured, the promise
    it returned, and where its [axiosRequest] loop stands. *)
Record RequestLoop := {
  rq_nodeId : string;
  rq_url : string;
  rq_method : option string;
  rq_data : option string;
  rq_responseType : option string;
  rq_promise : PromiseState UnifiResponse;
  rq_then : RequestThen;
  rq_phase : RequestPhase }.

Inductive Task :=
| TaskAuthenticate (loop : nat)
| TaskAxiosRequest (req : nat).

Inductive Effect :=
| LoginPost (url : string) (user pass : string) (signalAborted : bool)
| AxiosRequest (url : string) (method : option string) (body : option string)
    (cookie : string) (requestId : string) (responseType : option string)
| LogoutPost (url : string)
| SetTimeout (task : Task) (delay : Z)
| SetInterval (delay : Z)
| ClearTimeout
| AbortSignal
| Emit (event : string)
| UnhandledRejection (reason : JsError).

(** The fields of [self] (the [AccessControllerNodeType] object), followed
    by the bookkeeping of the event loop. *)
Record Node := {
  config : AccessControllerNodeConfigType;
  credentials : Credentials;
  id : string;
  initialized : bool;
  authenticated : bool;
  stopped : bool;
  nodeControllerType : ControllerType;
  aborted : bool;
  authCookie : option string;
  bootstrapObject : option UnifiResponse;
  refreshTimeout : bool;
  logins : list LoginLoop;
  requests : list RequestLoop;
  effects : list Effect }.

Definition set_initialized (b : bool) (s : Node) : Node :=
  {| config := config s; credentials := credentials s; id := id s;
     initialized := b; authenticated := authenticated s;
     stopped := stopped s; nodeControllerType := nodeControllerType s;
     aborted := aborted s; authCookie := authCookie s;
     bootstrapObject := bootstrapObject s;
     refreshTimeout := refreshTimeout s; logins := logins s;
     requests := requests s; effects := effects s |}.

Definition set_authenticated (b : bool) (s : Node) : Node :=
  {| config := config s; credentials := credentials s; id := id s;
     initialized := initialized s; authenticated := b;
     stopped := stopped s; nodeControllerType := nodeControllerType s;
     aborted := aborted s; authCookie := authCookie s;
     bootstrapObject := bootstrapObject s;
     refreshTimeout := refreshTimeout s; logins := logins s;
     requests := requests s; effects := effects s |}.

Definition set_stopped (b : bool) (s : Node) : Node :=
  {| config := config s; credentials := credentials s; id := id s;
     initialized := initialized s; authenticated := authenticated s;
     stopped := b; nodeControllerType := nodeControllerType s;
     aborted := aborted s; authCookie := authCookie s;
     bootstrapObject := bootstrapObject s;
     refreshTimeout := refreshTimeout s; logins := logins s;
     requests := requests s; effects := effects s |}.

Definition set_aborted (b : bool) (s : Node) : Node :=
  {| config := config s; credentials := credentials s; id := id s;
     initialized := initialized s; authenticated := authenticated s;
     stopped := stopped s; nodeControllerType := nodeControllerType s;
     aborted := b; authCookie := authCookie s;
     bootstrapObject := bootstrapObject s;
     refreshTimeout := refreshTimeout s; logins := logins s;
     requests := requests s; effects := effects s |}.

Definition set_authCookie (c : option string) (s : Node) : Node :=
  {| config := config s; credentials := credentials s; id := id s;
     initialized := initialized s; authenticated := authenticated s;
     stopped := stopped s; nodeControllerType := nodeControllerType s;
     aborted := aborted s; authCookie := c;
     bootstrapObject := bootstrapObject s;
     refreshTimeout := refreshTimeout s; logins := logins s;
     requests := requests s; effects := effects s |}.

Definition set_bootstrapObject (b : option UnifiResponse) (s : Node) : Node :=
  {| config := config s; credentials := credentials s; id := id s;
     initialized := initialized s; authenticated := authenticated s;
     stopped := stopped s; nodeControllerType := nodeControllerType s;
     aborted := aborted s; authCookie := authCookie s;
     bootstrapObject := b;
     refreshTimeout := refreshTimeout s; logins := logins s;
     requests := requests s; effects := effects s |}.

Definition set_refreshTimeout (b : bool) (s : Node) : Node :=
  {| config := config s; credentials := credentials s; id := id s;
     initialized := initialized s; authenticated := authenticated s;
     stopped := stopped s; nodeControllerType := nodeControllerType s;
     aborted := aborted s; authCookie := authCookie s;
     bootstrapObject := bootstrapObject s;
     refreshTimeout := b; logins := logins s;
     requests := requests s; effects := effects s |}.

Definition set_logins (l : list LoginLoop) (s : Node) : Node :=
  {| config := config s; credentials := credentials s; id := id s;
     initialized := initialized s; authenticated := authenticated s;
     stopped := stopped s; nodeControllerType := nodeControllerType s;
     aborted := aborted s; authCookie := authCookie s;
     bootstrapObject := bootstrapObject s;
     refreshTimeout := refreshTimeout s; logins := l;
     requests := requests s; effects := effects s |}.

Definition set_requests (l : list RequestLoop) (s : Node) : Node :=
  {| config := config s; credentials := credentials s; id := id s;
     initialized := initialized s; authenticated := authenticated s;
     stopped := stopped s; nodeControllerType := nodeControllerType s;
     aborted := aborted s; authCookie := authCookie s;
     bootstrapObject := bootstrapObject s;
     refreshTimeout := refreshTimeout s; logins := logins s;
     requests := l; effects := effects s |}.

(** An effect happens: it goes to the end of the log. *)
Definition emit (e : Effect) (s : Node) : Node :=
  {| config := config s; credentials := credentials s; id := id s;
     initialized := initialized s; authenticated := authenticated s;
     stopped := stopped s; nodeControllerType := nodeControllerType s;
     aborted := aborted s; authCookie := authCookie s;
     bootstrapObject := bootstrapObject s;
     refreshTimeout := refreshTimeout s; logins := logins s;
     requests := requests s; effects := effects s ++ [e] |}.

Definition set_ll_phase (p : Phase) (l : LoginLoop) : LoginLoop :=
  {| ll_promise := ll_promise l; ll_then := ll_then l; ll_phase := p |}.

Definition set_ll_promise (v : PromiseState (option string)) (l : LoginLoop)
  : LoginLoop :=
  {| ll_promise := v; ll_then := ll_then l; ll_phase := ll_phase l |}.

Definition set_rq_phase (p : RequestPhase) (q : RequestLoop) : RequestLoop :=
  {| rq_nodeId := rq_nodeId q; rq_url := rq_url q; rq_method := rq_method q;
     rq_data := rq_data q; rq_responseType := rq_responseType q;
     rq_promise := rq_promise q; rq_then := rq_then q; rq_phase := p |}.

Definition set_rq_promise (v : PromiseState UnifiResponse) (q : RequestLoop)
  : RequestLoop :=
  {| rq_nodeId := rq_nodeId q; rq_url := rq_url q; rq_method := rq_method q;
     rq_data := rq_data q; rq_responseType := rq_responseType q;
     rq_promise := v; rq_then := rq_then q; rq_phase := rq_phase q |}.

Definition login_phase (l : nat) (s : Node) : option Phase :=
  ll_phase <$> logins s !! l.

Definition login_promise (l : nat) (s : Node)
  : option (PromiseState (option string)) :=
  ll_promise <$> logins s !! l.

Definition request_phase (r : nat) (s : Node) : option RequestPhase :=
  rq_phase <$> requests s !! r.

Definition request_promise (r : nat) (s : Node)
  : option (PromiseState UnifiResponse) :=
  rq_promise <$> requests s !! r.

Definition alter_login (f : LoginLoop -> LoginLoop) (l : nat) (s : Node) : Node :=
  set_logins (alter f l (logins s)) s.

Definition alter_request (f : RequestLoop -> RequestLoop) (r : nat) (s : Node)
  : Node :=
  set_requests (alter f r (requests s)) s.

(** ** AccessController.ts *)

Section SessionManager.
Context `{endpoints : EndpointTable}.

(** [urlBuilder(self, endpoint)]: the port is added only when its trimmed
    text is not empty; a missing endpoint is concatenated as "undefined". *)
Definition urlBuilder (self : Node) (endpoint : option string) : string :=
  protocol_base +:+ controllerIp (config self)
  +:+ (match controllerPort (config self) with
       | Some port =>
           if (0 <? String.length (trim port))%nat then ":" +:+ port
           else EmptyString
       | None => EmptyString
       end)
  +:+ js_string endpoint.

(** The delay of both retry loops: [endpoints[self.controllerType].login.retry]. *)
Definition retryDelay (self : Node) : Z :=
  login_retry (login (nodeControllerType self)).

(** One run of [authenticateWithRetry]: the Axios.post of the login call,
    carrying the signal of [self.abortController]. *)
Definition authenticateWithRetry (l : nat) (self : Node) : Node :=
  emit (LoginPost (urlBuilder self
                     (Some (login_url (login (nodeControllerType self)))))
          (username (credentials self)) (password (credentials self))
          (aborted self))
    (alter_login (set_ll_phase InFlight) l self).

(** [self.getAuthCookie(regenerate)].  The result is the index of the
    promise it returns; [k] is what the caller chained on that promise. *)
Definition getAuthCookie (regenerate : option bool) (k : CookieThen)
    (self : Node) : nat * Node :=
  let p := length (logins self) in
  if truthy (authCookie self) && negb (bool_decide (regenerate = Some true))
  then
    (p, set_logins (logins self ++
          [{| ll_promise := Resolved (authCookie self);
              ll_then := k; ll_phase := Idle |}]) self)
  else
    (p, authenticateWithRetry p
          (set_logins (logins self ++
             [{| ll_promise := Pending; ll_then := k; ll_phase := Idle |}])
             self)).

(** The Axios.request of [axiosRequest], once the awaited cookie [value] is
    there; [value ?? ''] is the cookie header. *)
Definition sendRequest (r : nat) (value : option string) (self : Node) : Node :=
  match requests self !! r with
  | Some q =>
      emit (AxiosRequest (rq_url q) (rq_method q) (rq_data q)
              (default EmptyString value) (rq_nodeId q) (rq_responseType q))
        (alter_request (set_rq_phase RInFlight) r self)
  | None => self
  end.

(** [axiosRequest()]: await [self.getAuthCookie()], then send.  When the
    cookie promise is already resolved the request goes out in the same
    turn of the event loop, otherwise the loop waits for the login. *)
Definition axiosRequest (r : nat) (self : Node) : Node :=
  let '(p, self1) := getAuthCookie None (ThenAxiosRequest r) self in
  match login_promise p self1 with
  | Some (Resolved value) => sendRequest r value self1
  | _ => alter_request (set_rq_phase (RAwaitCookie p)) r self1
  end.

(** [self.request(nodeId, endpoint, method, data, responseType)].  The two
    [Promise.reject(...)] of the argument checks are created and dropped:
    nothing returns or awaits them, so they surface as unhandled rejections
    and the function carries on. *)
Definition request (nodeId : string) (endpoint method : option string)
    (body : option string) (responseType : option string) (k : RequestThen)
    (self : Node) : nat * Node :=
  let self1 :=
    if truthy endpoint then self
    else emit (UnhandledRejection (Error "endpoint cannot be empty!")) self in
  let self2 :=
    if truthy method then self1
    else emit (UnhandledRejection (Error "method cannot be empty!")) self1 in
  let url := urlBuilder self2 endpoint in
  let r := length (requests self2) in
  (r, axiosRequest r
        (set_requests (requests self2 ++
           [{| rq_nodeId := nodeId; rq_url := url; rq_method := method;
               rq_data := body; rq_responseType := responseType;
               rq_promise := Pending; rq_then := k; rq_phase := RIdle |}])
           self2)).

(** [getBootstrap()] *)
Definition getBootstrap (self : Node) : Node :=
  (request (id self) (Some bootstrapURI) (Some "GET") None (Some "json")
     RequestBootstrap self).2.

(** The code chained on a cookie promise, run when the promise resolves. *)
Definition cookie_then (k : CookieThen) (value : option string) (self : Node)
  : Node :=
  match k with
  | ThenCaller => self
  | ThenAxiosRequest r => sendRequest r value self
  | ThenRefresh init =>
      getBootstrap
        (if bool_decide (init = Some true) then set_initialized true self
         else self)
  end.

(** [refresh(init)] *)
Definition refresh (init : option bool) (self : Node) : Node :=
  let '(p, self1) := getAuthCookie (Some true) (ThenRefresh init) self in
  match login_promise p self1 with
  | Some (Resolved value) => cookie_then (ThenRefresh init) value self1
  | _ => self1
  end.

(** The code chained on a request promise. *)
Definition request_then (k : RequestThen) (o : PromiseState UnifiResponse)
    (self : Node) : Node :=
  match k, o with
  | RequestBootstrap, Resolved res =>
      emit (Emit "NRCHKB:UNIFIOS:BOOTSTRAP")
        (set_bootstrapObject (Some res) self)
  | _, _ => self
  end.

(** [resolve(...)] or [reject(...)] of a request promise: only the first
    call settles it. *)
Definition settle (r : nat) (o : PromiseState UnifiResponse) (self : Node)
  : Node :=
  match requests self !! r with
  | Some q =>
      match rq_promise q with
      | Pending =>
          request_then (rq_then q) o (alter_request (set_rq_promise o) r self)
      | _ => self
      end
  | None => self
  end.

(** [resolve(self.authCookie)] in [authenticateWithRetry]. *)
Definition resolveCookie (l : nat) (value : option string) (self : Node)
  : Node :=
  match logins self !! l with
  | Some loop =>
      match ll_promise loop with
      | Pending =>
          cookie_then (ll_then loop) value
            (alter_login (set_ll_promise (Resolved value)) l self)
      | _ => self
      end
  | None => self
  end.

(** The [then] and [catch] handlers of the login call. *)
Definition onLoginSettled (l : nat) (o : Settled) (self : Node) : Node :=
  match o with
  | Fulfilled response =>
      let self1 := alter_login (set_ll_phase Idle) l self in
      if (status response =? 200)%Z then
        let self2 := set_authCookie (set_cookie response ≫= head) self1 in
        let self3 := set_authenticated true self2 in
        resolveCookie l (authCookie self3) self3
      else self1
  | RejectedWith _ =>
      let self1 := set_authenticated false self in
      let self2 := set_authCookie None self1 in
      if stopped self2 then alter_login (set_ll_phase Idle) l self2
      else
        emit (SetTimeout (TaskAuthenticate l) (retryDelay self2))
          (alter_login (set_ll_phase (Scheduled (retryDelay self2))) l self2)
  end.

(** The [catch] and [then] handlers chained on Axios.request. *)
Definition onRequestSettled (r : nat) (o : Settled) (self : Node) : Node :=
  match o with
  | RejectedWith error =>
      let self1 :=
        match error with
        | HttpError st _ =>
            if (st =? 401)%Z then
              let a := set_authenticated false self in
              let b := set_authCookie None a in
              emit (SetTimeout (TaskAxiosRequest r) (retryDelay b))
                (alter_request (set_rq_phase (RScheduled (retryDelay b))) r b)
            else alter_request (set_rq_phase RIdle) r self
        | _ => alter_request (set_rq_phase RIdle) r self
        end in
      settle r (Rejected error) self1
  | Fulfilled response =>
      settle r (Resolved (data response))
        (alter_request (set_rq_phase RIdle) r self)
  end.

(** [self.on('close', ...)] *)
Definition close (self : Node) : Node :=
  let self1 := set_stopped true self in
  let self2 := emit ClearTimeout (set_refreshTimeout false self1) in
  let self3 := emit AbortSignal (set_aborted true self2) in
  emit (LogoutPost (urlBuilder self3
                      (Some (logout_url (nodeControllerType self3))))) self3.

(** The admin endpoint that hands out the bootstrap: status and body. *)
Definition adminBootstrap (self : Node) : Z * option UnifiResponse :=
  match bootstrapObject self with
  | Some b => (200, Some b)
  | None => (501, None)
  end.

(** [body]: the constructor of the node. *)
Definition body (cfg : AccessControllerNodeConfigType) (creds : Credentials)
    (nodeId : string) : Node :=
  refresh (Some true)
    {| config := cfg; credentials := creds; id := nodeId;
       initialized := false; authenticated := false; stopped := false;
       nodeControllerType := default UniFiOSConsole (controllerType cfg);
       aborted := false; authCookie := None; bootstrapObject := None;
       refreshTimeout := true; logins := []; requests := [];
       effects := [SetInterval 2700000] |}.

(** One callback of the event loop.  An answer or a timer for a loop that
    is not waiting for it cannot happen and leaves the state as it is. *)
Inductive Event :=
| CallGetAuthCookie (regenerate : option bool)
| CallRequest (nodeId : string) (endpoint method : option string)
    (body : option string) (responseType : option string)
| RefreshTick
| LoginSettled (loop : nat) (o : Settled)
| RequestSettled (req : nat) (o : Settled)
| TimerFires (task : Task)
| Close.

Definition step (self : Node) (e : Event) : Node :=
  match e with
  | CallGetAuthCookie regenerate =>
      (getAuthCookie regenerate ThenCaller self).2
  | CallRequest nodeId endpoint method body responseType =>
      (request nodeId endpoint method body responseType RequestCaller self).2
  | RefreshTick =>
      if refreshTimeout self then refresh None self else self
  | LoginSettled l o =>
      match login_phase l self with
      | Some InFlight => onLoginSettled l o self
      | _ => self
      end
  | RequestSettled r o =>
      match request_phase r self with
      | Some RInFlight => onRequestSettled r o self
      | _ => self
      end
  | TimerFires (TaskAuthenticate l) =>
      match login_phase l self with
      | Some (Scheduled _) => authenticateWithRetry l self
      | _ => self
      end
  | TimerFires (TaskAxiosRequest r) =>
      match request_phase r self with
      | Some (RScheduled _) => axiosRequest r self
      | _ => self
      end
  | Close => close self
  end.

Definition run (self : Node) (events : list Event) : Node :=
  foldl step self events.

(** ** What the properties observe *)

Definition is_login_post (e : Effect) : bool :=
  match e with LoginPost _ _ _ _ => true | _ => false end.

Definition login_calls (self : Node) : nat :=
  length (filter (fun e => is_login_post e = true) (effects self)).

(** No promise of [getAuthCookie] is rejected. *)
Definition unrejected (loop : LoginLoop) : Prop :=
  forall error, ll_promise loop <> Rejected error.

Definition no_cookie_promise_rejected (self : Node) : Prop :=
  Forall unrejected (logins self).

(** The promises [request] has returned so far, in the order of the calls. *)
Definition request_promises (self : Node) : list (PromiseState UnifiResponse) :=
  rq_promise <$> requests self.

(** What the handlers of Axios.request pass to [resolve] or [reject]. *)
Definition outcome_promise (o : Settled) : PromiseState UnifiResponse :=
  match o with
  | Fulfilled response => Resolved (data response)
  | RejectedWith error => Rejected error
  end.

(** A callback that settles nothing: the promises are the same, or one new
    pending promise was added. *)
Definition at_most_one_new (old new : list (PromiseState UnifiResponse))
  : Prop :=
  new = old \/ new = old ++ [Pending].

(** The unhandled rejections the argument checks of [request] leave. *)
Definition dropped_rejections (endpoint method : option string) : list Effect :=
  (if truthy endpoint then []
   else [UnhandledRejection (Error "endpoint cannot be empty!")])
  ++ (if truthy method then []
      else [UnhandledRejection (Error "method cannot be empty!")]).

(** The two fields of the credential state. *)
Definition auth_state (self : Node) : bool * option string :=
  (authenticated self, authCookie self).

(** The invariant of the spec: authenticated exactly when a cookie is held. *)
Definition two_valued (self : Node) : Prop :=
  authenticated self = true <-> is_Some (authCookie self).

(** The part of it the code keeps. *)
Definition cookie_implies_authenticated (self : Node) : Prop :=
  is_Some (authCookie self) -> authenticated self = true.

(** A login answered with status 200 and no cookie in its headers. *)
Definition bare_success (e : Event) : Prop :=
  match e with
  | LoginSettled _ (Fulfilled response) =>
      status response = 200 /\ set_cookie response ≫= head = None
  | _ => False
  end.

End SessionManager.

(** ** SharedProtectWebSocket *)

(** A consumer's handler function.  Its body belongs to the consumer; the
    channel only calls it, and the call is an effect of the channel. *)
Definition WSDataCallback := nat.

Record Interest := { deviceId : string; callback : WSDataCallback }.

(** The bootstrap document, of which the channel reads [lastUpdateId]. *)
Record Bootstrap := { lastUpdateId : option string }.

Inductive Completion (A : Type) :=
| Returns (value : A)
| Throws.
Arguments Returns {A} value.
Arguments Throws {A}.

(** The two decoders the frame handler calls.  [JSON.parse] is the
    runtime's; [ProtectApiUpdates.decodeUpdatePacket] is imported from
    [../lib/ProtectApiUpdates], which is not among the sources: both are
    parameters, and either may return a value of the payload type [any] or
    throw. *)
Class Decoders (any : Type) := {
  JSON_parse : string -> Completion any;
  decodeUpdatePacket : string -> Completion any }.

Inductive Listener := MessageListener.

(** The socket object of the [ws] package, as far as [Connect] sets it up:
    where it connects, the Cookie header, and the listeners added with
    [on]. *)
Record WebSocket := {
  ws_url : string;
  ws_cookie : option string;
  ws_on : list (string * Listener) }.

Record SharedProtectWebSocket := {
  bootstrap : Bootstrap;
  callbacks : gmap string Interest;
  WS : option WebSocket;
  Config : AccessControllerNodeConfigType }.

(** What the socket emits. *)
Inductive WsEvent :=
| WsMessage (data : string)
| WsError (reason : JsError)
| WsClose (code : Z).

Definition event_name (e : WsEvent) : string :=
  match e with
  | WsMessage _ => "message"
  | WsError _ => "error"
  | WsClose _ => "close"
  end.

Inductive WsEffect (any : Type) :=
| NewWebSocket (url : string) (cookie : option string)
| CallDecodeUpdatePacket (data : string)
| Invoke (node : string) (handler : WSDataCallback) (payload : any)
| UncaughtException.
Arguments NewWebSocket {any} url cookie.
Arguments CallDecodeUpdatePacket {any} data.
Arguments Invoke {any} node handler payload.
Arguments UncaughtException {any}.

Definition set_callbacks (m : gmap string Interest) (c : SharedProtectWebSocket)
  : SharedProtectWebSocket :=
  {| bootstrap := bootstrap c; callbacks := m; WS := WS c; Config := Config c |}.

Definition set_WS (w : option WebSocket) (c : SharedProtectWebSocket)
  : SharedProtectWebSocket :=
  {| bootstrap := bootstrap c; callbacks := callbacks c; WS := w;
     Config := Config c |}.

Definition set_bootstrap (b : Bootstrap) (c : SharedProtectWebSocket)
  : SharedProtectWebSocket :=
  {| bootstrap := b; callbacks := callbacks c; WS := WS c; Config := Config c |}.

(** [degisterInterest(nodeId)] (the source's spelling) *)
Definition degisterInterest (nodeId : string) (c : SharedProtectWebSocket)
  : SharedProtectWebSocket :=
  set_callbacks (delete nodeId (callbacks c)) c.

(** [registerInterest(nodeId, interest)] *)
Definition registerInterest (nodeId : string) (interest : Interest)
    (c : SharedProtectWebSocket) : SharedProtectWebSocket :=
  set_callbacks (<[nodeId := interest]> (callbacks c)) c.

(** [updateLastUpdateId(newBootstrap)] *)
Definition updateLastUpdateId (newBootstrap : Bootstrap)
    (c : SharedProtectWebSocket) : SharedProtectWebSocket :=
  set_bootstrap newBootstrap c.

(** [Object.keys(this.callbacks)]: every key once; the order in which a
    JavaScript object lists its keys is not modelled. *)
Definition Object_keys (m : gmap string Interest) : list string :=
  (map_to_list m).*1.

Section Channel.
Context `{endpoints : EndpointTable}.
Context {any : Type} `{decoders : Decoders any}.

(** The [forEach] of the frame handler: look every key up again and call
    the callback found there. *)
Definition dispatch (objectToSend : any) (c : SharedProtectWebSocket)
  : list (WsEffect any) :=
  flat_map
    (fun Node =>
       match callbacks c !! Node with
       | Some interest => [Invoke Node (callback interest) objectToSend]
       | None => [UncaughtException]
       end)
    (Object_keys (callbacks c)).

(** The listener [Connect] adds for 'message'.  It assigns no field of
    [this]: the channel comes back as it was. *)
Definition onMessage (frame : string) (c : SharedProtectWebSocket)
  : SharedProtectWebSocket * list (WsEffect any) :=
  match JSON_parse frame with
  | Returns objectToSend => (c, dispatch objectToSend c)
  | Throws =>
      match decodeUpdatePacket frame with
      | Returns objectToSend =>
          (c, CallDecodeUpdatePacket frame :: dispatch objectToSend c)
      | Throws => (c, [CallDecodeUpdatePacket frame; UncaughtException])
      end
  end.

(** [Connect()], from the point where the awaited [getAuthCookie()] has
    produced [cookie]. *)
Definition Connect (cookie : option string) (c : SharedProtectWebSocket)
  : SharedProtectWebSocket * list (WsEffect any) :=
  let url :=
    protocol_webSocket +:+ controllerIp (Config c)
    +:+ "/proxy/protect/ws/updates?lastUpdateId="
    +:+ js_string (lastUpdateId (bootstrap c)) in
  (set_WS (Some {| ws_url := url; ws_cookie := cookie;
                   ws_on := [("message", MessageListener)] |}) c,
   [NewWebSocket url cookie]).

(** The constructor, which connects at once. *)
Definition new_SharedProtectWebSocket (config : AccessControllerNodeConfigType)
    (initialBootstrap : Bootstrap) (cookie : option string)
  : SharedProtectWebSocket * list (WsEffect any) :=
  Connect cookie
    {| bootstrap := initialBootstrap; callbacks := ∅; WS := None;
       Config := config |}.

Definition run_listener (h : Listener) (e : WsEvent)
    (c : SharedProtectWebSocket)
  : SharedProtectWebSocket * list (WsEffect any) :=
  match h, e with
  | MessageListener, WsMessage frame => onMessage frame c
  | MessageListener, _ => (c, [])
  end.

(** The socket emits an event: the listeners added under its name run in
    turn.  An 'error' that nobody listens to is thrown by the emitter. *)
Definition ws_emit (e : WsEvent) (c : SharedProtectWebSocket)
  : SharedProtectWebSocket * list (WsEffect any) :=
  match WS c with
  | Some ws =>
      match filter (fun h => h.1 = event_name e) (ws_on ws), e with
      | [], WsError _ => (c, [UncaughtException])
      | hs, _ =>
          foldl (fun acc h =>
                   let r := run_listener h.2 e acc.1 in (r.1, acc.2 ++ r.2))
            (c, []) hs
      end
  | None => (c, [])
  end.


(** The socket [Connect] left in [this.WS] is the one delivering events. *)
Definition connected (c : SharedProtectWebSocket) : Prop :=
  exists ws, WS c = Some ws /\ ws_on ws = [("message", MessageListener)].

(** The handler calls made by a list of effects. *)
Definition invocations (l : list (WsEffect any))
  : list (string * WSDataCallback * any) :=
  flat_map
    (fun e => match e with Invoke n h v => [(n, h, v)] | _ => [] end) l.

(** The payload of a frame, when one of the two decoders produces it. *)
Definition decodes_to (frame : string) (v : any) : Prop :=
  JSON_parse frame = Returns v \/
  (JSON_parse frame = Throws /\ decodeUpdatePacket frame = Returns v).

End Channel.

(** ** A sample installation *)

Definition sampleEndpoints : EndpointTable :=
  {| protocol_base := "https://";
     protocol_webSocket := "wss://";
     login := fun t =>
       match t with
       | UniFiOSConsole =>
           {| login_url := "/api/auth/login"; login_retry := 5000 |}
       | UniFiNetworkApplication =>
           {| login_url := "/api/login"; login_retry := 8000 |}
       end;
     logout_url := fun t =>
       match t with
       | UniFiOSConsole => "/api/auth/logout"
       | UniFiNetworkApplication => "/api/logout"
       end |}.

Definition sampleConfig : AccessControllerNodeConfigType :=
  {| name := "nvr"; controllerIp := "192.168.1.1"; controllerPort := None;
     controllerType := None |}.

Definition sampleCredentials : Credentials :=
  {| username := "admin"; password := "secret" |}.

Definition sampleNode : Node :=
  body (endpoints := sampleEndpoints) sampleConfig sampleCredentials "n1".

Definition ok (cookie : option (list string)) : Settled :=
  Fulfilled {| status := 200; set_cookie := cookie; data := "{}" |}.

Definition unauthorized : Settled :=
  RejectedWith (HttpError 401 "Unauthorized").

(** The sample node once its first login was answered with the cookie "A":
    the bootstrap request (request 0) is in flight. *)
Definition sampleAuthed : Node :=
  run (endpoints := sampleEndpoints) sampleNode
    [LoginSettled 0 (ok (Some ["A"]))].

(** Sample decoders: a frame that starts with a brace parses as JSON, any
    other frame with at least one byte decodes as a packet. *)
Definition sampleDecoders : Decoders string :=
  {| JSON_parse := fun s =>
       match s with
       | String "{" _ => Returns s
       | _ => Throws
       end;
     decodeUpdatePacket := fun s =>
       match s with
       | EmptyString => Throws
       | _ => Returns ("packet:" +:+ s)
       end |}.

Definition sampleChannel : SharedProtectWebSocket :=
  registerInterest "cam" {| deviceId := "d1"; callback := 7%nat |}
    (registerInterest "bell" {| deviceId := "d2"; callback := 8%nat |}
       (new_SharedProtectWebSocket (endpoints := sampleEndpoints)
          (any := string) sampleConfig {| lastUpdateId := Some "u0" |}
          (Some "TOKEN")).1).

(** ** Further observations *)

(** The registry operations a consumer can make, and a run of them. *)
Inductive RegistryOp :=
| Register (nodeId : string) (interest : Interest)
| Degister (nodeId : string).

Definition apply_op (c : SharedProtectWebSocket) (op : RegistryOp)
  : SharedProtectWebSocket :=
  match op with
  | Register nodeId interest => registerInterest nodeId interest c
  | Degister nodeId => degisterInterest nodeId c
  end.

Definition apply_ops (c : SharedProtectWebSocket) (ops : list RegistryOp)
  : SharedProtectWebSocket :=
  foldl apply_op c ops.

(** What the last operation on the key [n] left there, [start] being what
    the key held before the run. *)
Fixpoint last_registration (ops : list RegistryOp) (n : string)
    (start : option Interest) : option Interest :=
  match ops with
  | [] => start
  | Register m i :: ops' =>
      last_registration ops' n (if decide (m = n) then Some i else start)
  | Degister m :: ops' =>
      last_registration ops' n (if decide (m = n) then None else start)
  end.

Section ChannelObservations.
Context {any : Type} `{decoders : Decoders any}.



End ChannelObservations.

Section SessionObservations.
Context `{endpoints : EndpointTable}.

(** What [self] is constructed with and what its close handler sets. *)
Definition statics (self : Node)
  : AccessControllerNodeConfigType * Credentials * string * ControllerType :=
  (config self, credentials self, id self, nodeControllerType self).

Definition lifecycle (self : Node) : bool * bool * bool :=
  (stopped self, aborted self, refreshTimeout self).

Definition loginUrl (self : Node) : string :=
  urlBuilder self (Some (login_url (login (nodeControllerType self)))).

Definition logoutUrl (self : Node) : string :=
  urlBuilder self (Some (logout_url (nodeControllerType self))).

(** The effects of everything but the close handler: a login call goes to
    the login URL with the stored credentials and the current state of the
    abort signal, a timer has the delay of the variant, and the only event
    emitted announces a bootstrap. *)
Definition routine (self : Node) (e : Effect) : Prop :=
  match e with
  | LoginPost url user pass signalAborted =>
      url = loginUrl self /\ user = username (credentials self)
      /\ pass = password (credentials self) /\ signalAborted = aborted self
  | SetTimeout _ delay => delay = retryDelay self
  | Emit event => event = "NRCHKB:UNIFIOS:BOOTSTRAP"
  | AxiosRequest _ _ _ _ _ _ | UnhandledRejection _ => True
  | LogoutPost _ | SetInterval _ | ClearTimeout | AbortSignal => False
  end.

(** [self'] comes from [self] by such effects, without a close. *)
Definition extends (self self' : Node) : Prop :=
  statics self' = statics self /\ lifecycle self' = lifecycle self
  /\ exists new, effects self' = effects self ++ new
                 /\ Forall (routine self) new.

(** A call or a timer as a node with the configuration of [origin] should
    make it. *)
Definition as_configured (origin : Node) (e : Effect) : Prop :=
  match e with
  | LoginPost url user pass _ =>
      url = loginUrl origin /\ user = username (credentials origin)
      /\ pass = password (credentials origin)
  | LogoutPost url => url = logoutUrl origin
  | SetTimeout _ delay => delay = retryDelay origin
  | SetInterval delay => delay = 2700000
  | _ => True
  end.

Definition is_logout (e : Effect) : bool :=
  match e with LogoutPost _ => true | _ => false end.

Definition logout_calls (self : Node) : nat :=
  length (filter (fun e => is_logout e = true) (effects self)).

Definition is_close (e : Event) : bool :=
  match e with Close => true | _ => false end.

Definition closes (events : list Event) : nat :=
  length (filter (fun e => is_close e = true) events).

Definition is_abort (e : Effect) : bool :=
  match e with AbortSignal => true | _ => false end.

(** Reading the effect log from the start, [ab] telling whether the signal
    was aborted before: every login call carries the state of the signal at
    its place in the log. *)
Fixpoint signals_consistent (ab : bool) (l : list Effect) : Prop :=
  match l with
  | [] => True
  | AbortSignal :: l' => signals_consistent true l'
  | LoginPost _ _ _ signalAborted :: l' =>
      signalAborted = ab /\ signals_consistent ab l'
  | _ :: l' => signals_consistent ab l'
  end.

(** A login answered with status 200. *)
Definition login_succeeded (e : Event) : Prop :=
  match e with
  | LoginSettled _ (Fulfilled response) => status response = 200
  | _ => False
  end.

(** The body of a fulfilled request. *)
Definition fulfilled_with (b : UnifiResponse) (e : Event) : Prop :=
  match e with
  | RequestSettled _ (Fulfilled response) => data response = b
  | _ => False
  end.

(** What the refresh cycle fills in. *)
Definition cache (self : Node) : bool * option UnifiResponse :=
  (initialized self, bootstrapObject self).


End SessionObservations.

(** * Properties of the session manager *)

Lemma alter_last {A} (f : A -> A) (l : list A) (x : A) :
  alter f (length l) (l ++ [x]) = l ++ [f x].
Proof. induction l as [|y l IH]; [done|]. cbn. by rewrite IH. Qed.

Lemma lookup_last {A} (l : list A) (x : A) : (l ++ [x]) !! length l = Some x.
Proof. by apply list_lookup_middle. Qed.

(** Lookups and updates at the entry a call has just appended. *)
Ltac node_simpl :=
  repeat (first [ rewrite alter_last | rewrite lookup_last
                | progress cbn -[lookup alter] ]).

(** Projections of a state built by the setters. *)
Ltac fields :=
  cbn [config credentials id initialized authenticated stopped
       nodeControllerType aborted authCookie bootstrapObject refreshTimeout
       logins requests effects
       set_initialized set_authenticated set_stopped set_aborted
       set_authCookie set_bootstrapObject set_refreshTimeout set_logins
       set_requests emit alter_login alter_request
       ll_promise ll_then ll_phase set_ll_phase set_ll_promise
       rq_nodeId rq_url rq_method rq_data rq_responseType rq_promise rq_then
       rq_phase set_rq_phase set_rq_promise
       fst snd fmap option_fmap option_map].

Section SessionProperties.
Context `{endpoints : EndpointTable}.
Implicit Types (self s : Node) (l r p : nat) (e : Event).

(** ** The credential state changes in two handlers only *)

Lemma authenticateWithRetry_auth l s :
  auth_state (authenticateWithRetry l s) = auth_state s.
Proof. reflexivity. Qed.

Lemma getAuthCookie_auth regenerate k s :
  auth_state (getAuthCookie regenerate k s).2 = auth_state s.
Proof. unfold getAuthCookie. by case_match. Qed.

Lemma sendRequest_auth r value s :
  auth_state (sendRequest r value s) = auth_state s.
Proof. unfold sendRequest. by case_match. Qed.

Lemma axiosRequest_auth r s : auth_state (axiosRequest r s) = auth_state s.
Proof.
  unfold axiosRequest.
  pose proof (getAuthCookie_auth None (ThenAxiosRequest r) s) as H.
  destruct (getAuthCookie None (ThenAxiosRequest r) s) as [p s1]. cbn in H.
  repeat case_match; rewrite ?sendRequest_auth; exact H.
Qed.

Lemma request_auth nodeId endpoint method body rt k s :
  auth_state (request nodeId endpoint method body rt k s).2 = auth_state s.
Proof.
  unfold request. cbn [snd]. rewrite axiosRequest_auth.
  by repeat case_match.
Qed.

Lemma getBootstrap_auth s : auth_state (getBootstrap s) = auth_state s.
Proof. apply request_auth. Qed.

Lemma cookie_then_auth k value s :
  auth_state (cookie_then k value s) = auth_state s.
Proof.
  destruct k as [|init|r]; unfold cookie_then;
    [done| |apply sendRequest_auth].
  rewrite getBootstrap_auth. by case_bool_decide.
Qed.

Lemma refresh_auth init s : auth_state (refresh init s) = auth_state s.
Proof.
  unfold refresh.
  pose proof (getAuthCookie_auth (Some true) (ThenRefresh init) s) as H.
  destruct (getAuthCookie (Some true) (ThenRefresh init) s) as [p s1].
  cbn in H. repeat case_match; rewrite ?cookie_then_auth; exact H.
Qed.

Lemma settle_auth r o s : auth_state (settle r o s) = auth_state s.
Proof.
  unfold settle, request_then. by repeat case_match.
Qed.

Lemma resolveCookie_auth l value s :
  auth_state (resolveCookie l value s) = auth_state s.
Proof.
  unfold resolveCookie. repeat case_match; try done.
  by rewrite cookie_then_auth.
Qed.

Lemma close_auth s : auth_state (close s) = auth_state s.
Proof. reflexivity. Qed.

Lemma onLoginSettled_auth l o s :
  auth_state (onLoginSettled l o s)
  = match o with
    | Fulfilled response =>
        if (status response =? 200)%Z
        then (true, set_cookie response ≫= head)
        else auth_state s
    | RejectedWith _ => (false, None)
    end.
Proof.
  unfold onLoginSettled. destruct o as [response|reason].
  - case_match; [|done]. by rewrite resolveCookie_auth.
  - by case_match.
Qed.

Lemma onRequestSettled_auth r o s :
  auth_state (onRequestSettled r o s)
  = match o with
    | RejectedWith (HttpError st _) =>
        if (st =? 401)%Z then (false, None) else auth_state s
    | _ => auth_state s
    end.
Proof.
  unfold onRequestSettled. destruct o as [response|reason].
  - by rewrite settle_auth.
  - rewrite settle_auth. destruct reason; try done. by case_match.
Qed.

(** A callback leaves the credential state alone, or clears it, or is the
    [then] of a login answered with 200, which stores what the header
    holds. *)
Lemma step_auth s e :
  auth_state (step s e) = auth_state s
  \/ auth_state (step s e) = (false, None)
  \/ exists l response,
       e = LoginSettled l (Fulfilled response) /\ status response = 200
       /\ auth_state (step s e) = (true, set_cookie response ≫= head).
Proof.
  destruct e as [regenerate|nodeId endpoint method body rt| |l o|r o|task|];
    cbn [step].
  - left. apply getAuthCookie_auth.
  - left. apply request_auth.
  - left. case_match; [apply refresh_auth|done].
  - repeat case_match; try by left.
    rewrite onLoginSettled_auth. destruct o as [response|reason].
    + destruct (status response =? 200)%Z eqn:E; [|by left].
      right. right. exists l, response. apply Z.eqb_eq in E. done.
    + right. by left.
  - repeat case_match; try by left.
    rewrite onRequestSettled_auth. destruct o as [response|reason]; [by left|].
    destruct reason; try by left. case_match; [right|]; by left.
  - left. destruct task; repeat case_match; try done.
    apply axiosRequest_auth.
  - by left.
Qed.


Lemma body_auth cfg creds nodeId :
  auth_state (body cfg creds nodeId) = (false, None).
Proof. unfold body. by rewrite refresh_auth. Qed.

Lemma run_cons s e (events : list Event) :
  run s (e :: events) = run (step s e) events.
Proof. reflexivity. Qed.

Lemma run_app s (l1 l2 : list Event) : run s (l1 ++ l2) = run (run s l1) l2.
Proof. apply foldl_app. Qed.

Lemma cookie_implies_authenticated_run (events : list Event) s :
  cookie_implies_authenticated s ->
  cookie_implies_authenticated (run s events).
Proof.
  revert s. induction events as [|e events IH]; intros s Hs; [exact Hs|].
  rewrite run_cons. apply IH.
  unfold cookie_implies_authenticated in *.
  pose proof (step_auth s e) as H.
  set (s' := step s e) in *. clearbody s'.
  destruct H as [H|[H|(l & response & _ & _ & H)]];
    unfold auth_state in H; injection H as Ha Hc; rewrite Ha, Hc.
  - exact Hs.
  - by intros [x Hx].
  - done.
Qed.

Lemma two_valued_run (events : list Event) s :
  (forall e, e ∈ events -> ~ bare_success e) ->
  two_valued s -> two_valued (run s events).
Proof.
  revert s. induction events as [|e events IH]; intros s Hev Hs; [exact Hs|].
  rewrite run_cons. apply IH.
  { intros e' He'. apply Hev. by apply list_elem_of_further. }
  unfold two_valued in *.
  pose proof (step_auth s e) as H.
  set (s' := step s e) in *. clearbody s'.
  destruct H as [H|[H|(l & response & -> & Hst & H)]];
    unfold auth_state in H; injection H as Ha Hc; rewrite Ha, Hc.
  - exact Hs.
  - split; [done|]. by intros [x Hx].
  - split; [|done]. intros _.
    destruct (set_cookie response ≫= head) as [c|] eqn:Hh; [by eexists|].
    exfalso. apply (Hev (LoginSettled l (Fulfilled response))).
    + apply list_elem_of_here.
    + cbn. done.
Qed.

(** C8, as the code has it.  In every state the node reaches, a cookie that
    is held implies the authenticated mark (read the other way: an
    unauthenticated node holds no cookie).  The converse holds as long as no
    login was answered with status 200 and no cookie in its headers. *)
Theorem credential_state_invariant cfg creds nodeId (events : list Event) :
  let s := run (body cfg creds nodeId) events in
  cookie_implies_authenticated s
  /\ (authenticated s = false -> authCookie s = None)
  /\ ((forall e, e ∈ events -> ~ bare_success e) -> two_valued s).
Proof.
  intros s.
  pose proof (body_auth cfg creds nodeId) as Hb.
  pose proof (f_equal fst Hb) as Ha. pose proof (f_equal snd Hb) as Hc.
  unfold auth_state in Ha, Hc. cbn [fst snd] in Ha, Hc. clear Hb.
  assert (H1 : cookie_implies_authenticated s).
  { apply cookie_implies_authenticated_run.
    unfold cookie_implies_authenticated. rewrite Hc. by intros [x Hx]. }
  split; [exact H1|]. split.
  - intros Hf. destruct (authCookie s) as [c|] eqn:E; [|done].
    unfold cookie_implies_authenticated in H1. rewrite E in H1.
    rewrite H1 in Hf by (by eexists). discriminate.
  - intros Hev. apply two_valued_run; [exact Hev|].
    unfold two_valued. rewrite Ha, Hc. split; [done|]. by intros [x Hx].
Qed.

(** ** getAuthCookie *)

Lemma login_calls_emit s (x : Effect) :
  login_calls (emit x s)
  = (login_calls s + if is_login_post x then 1 else 0)%nat.
Proof.
  unfold login_calls. cbn [effects emit].
  rewrite filter_app, length_app. f_equal.
  destruct (is_login_post x) eqn:E.
  - by rewrite filter_cons_True.
  - rewrite filter_cons_False; [done|]. by rewrite E.
Qed.

Lemma set_logins_id s : set_logins (logins s) s = s.
Proof. by destruct s. Qed.

Lemma getAuthCookie_cached regenerate k s :
  truthy (authCookie s) = true -> regenerate <> Some true ->
  getAuthCookie regenerate k s
  = (length (logins s),
     set_logins (logins s ++
       [{| ll_promise := Resolved (authCookie s); ll_then := k;
           ll_phase := Idle |}]) s).
Proof.
  intros Ht Hr. unfold getAuthCookie. rewrite Ht.
  by rewrite bool_decide_eq_false_2.
Qed.

Lemma getAuthCookie_login regenerate k s :
  truthy (authCookie s) = false \/ regenerate = Some true ->
  getAuthCookie regenerate k s
  = (length (logins s),
     authenticateWithRetry (length (logins s))
       (set_logins (logins s ++
          [{| ll_promise := Pending; ll_then := k; ll_phase := Idle |}]) s)).
Proof.
  intros H. unfold getAuthCookie.
  destruct H as [->| ->]; [done|].
  rewrite bool_decide_eq_true_2 by done. by rewrite andb_false_r.
Qed.

(** Calls made while a cookie is held add resolved promises and nothing
    else. *)
Lemma run_cached_calls (n : nat) s :
  truthy (authCookie s) = true ->
  run s (replicate n (CallGetAuthCookie (Some false)))
  = set_logins (logins s ++
      replicate n {| ll_promise := Resolved (authCookie s);
                     ll_then := ThenCaller; ll_phase := Idle |}) s.
Proof.
  revert s. induction n as [|n IH]; intros s Ht.
  - cbn. rewrite app_nil_r. symmetry. apply set_logins_id.
  - cbn [replicate]. rewrite run_cons. cbn [step].
    rewrite getAuthCookie_cached by done. cbn [snd].
    rewrite IH by exact Ht. cbn.
    by rewrite <- app_assoc.
Qed.


(** A first call made without a cookie and answered with status 200 and
    the cookie [c]: one login call, the promise resolved with [c], the cookie
    stored. *)
Lemma first_login_resolves response c s :
  truthy (authCookie s) = false ->
  status response = 200 -> set_cookie response ≫= head = Some c ->
  run s [CallGetAuthCookie (Some false);
         LoginSettled (length (logins s)) (Fulfilled response)]
  = emit (LoginPost
            (urlBuilder s (Some (login_url (login (nodeControllerType s)))))
            (username (credentials s)) (password (credentials s)) (aborted s))
      (set_authenticated true (set_authCookie (Some c)
         (set_logins (logins s ++
            [{| ll_promise := Resolved (Some c); ll_then := ThenCaller;
                ll_phase := Idle |}]) s))).
Proof.
  intros Ht Hst Hc. unfold run. cbn [foldl step].
  rewrite getAuthCookie_login by (by left).
  destruct s as [cfg creds nid ini au st ct ab ck bo rt lg rq ef].
  unfold login_phase, onLoginSettled, resolveCookie, authenticateWithRetry,
    alter_login.
  cbn -[lookup alter] in *.
  repeat (first [ rewrite Hst | rewrite Hc | progress node_simpl ]).
  reflexivity.
Qed.

Lemma lookup_replicate_after {A} (l : list A) (x : A) (n i : nat) :
  (i < n)%nat -> (l ++ replicate n x) !! (length l + i)%nat = Some x.
Proof.
  intros Hi. rewrite lookup_app_r by lia.
  replace (length l + i - length l)%nat with i by lia.
  by apply lookup_replicate_2.
Qed.

(** C4, as the code has it.  For every state [s] of the node:
    - a call made while a non-empty cookie is held, without
      [regenerate = true], returns a promise already resolved with that
      cookie and issues no login call;
    - so any number of such calls in a row leave the login count and the
      cookie as they were and all resolve with the same cookie;
    - a call with [regenerate = true], or made while no cookie is held,
      issues a login call of its own and returns a pending promise;
    - from a state without a cookie, one call, its login answered with 200
      and the cookie [c], then [n] more calls: exactly one login call, and
      all [n + 1] promises resolved with [c]. *)
Theorem getAuthCookie_caching s :
  (forall regenerate k,
      truthy (authCookie s) = true -> regenerate <> Some true ->
      let ps := getAuthCookie regenerate k s in
      login_promise ps.1 ps.2 = Some (Resolved (authCookie s))
      /\ effects ps.2 = effects s /\ auth_state ps.2 = auth_state s)
  /\ (forall n : nat,
        truthy (authCookie s) = true ->
        let s' := run s (replicate n (CallGetAuthCookie (Some false))) in
        login_calls s' = login_calls s /\ auth_state s' = auth_state s
        /\ forall i : nat, (i < n)%nat ->
             login_promise (length (logins s) + i) s'
             = Some (Resolved (authCookie s)))
  /\ (forall regenerate k,
        truthy (authCookie s) = false \/ regenerate = Some true ->
        let ps := getAuthCookie regenerate k s in
        login_promise ps.1 ps.2 = Some Pending
        /\ login_phase ps.1 ps.2 = Some InFlight
        /\ login_calls ps.2 = S (login_calls s)
        /\ auth_state ps.2 = auth_state s)
  /\ (forall response c (n : nat),
        truthy (authCookie s) = false -> c <> EmptyString ->
        status response = 200 -> set_cookie response ≫= head = Some c ->
        let s' :=
          run s (CallGetAuthCookie (Some false)
                 :: LoginSettled (length (logins s)) (Fulfilled response)
                 :: replicate n (CallGetAuthCookie (Some false))) in
        login_calls s' = S (login_calls s) /\ authCookie s' = Some c
        /\ forall i : nat, (i <= n)%nat ->
             login_promise (length (logins s) + i) s'
             = Some (Resolved (Some c))).
Proof.
  split; [|split; [|split]].
  - intros regenerate k Ht Hr. cbn zeta.
    rewrite getAuthCookie_cached by done.
    unfold login_promise. cbn -[lookup]. by rewrite lookup_last.
  - intros n Ht. cbn zeta. rewrite run_cached_calls by exact Ht.
    split; [done|]. split; [done|].
    intros i Hi. unfold login_promise. cbn -[lookup].
    by rewrite lookup_replicate_after.
  - intros regenerate k H. cbn zeta. rewrite getAuthCookie_login by exact H.
    cbn [fst snd]. split; [|split; [|split; [|done]]].
    + unfold login_promise, authenticateWithRetry, alter_login.
      cbn -[lookup alter]. by rewrite alter_last, lookup_last.
    + unfold login_phase, authenticateWithRetry, alter_login.
      cbn -[lookup alter]. by rewrite alter_last, lookup_last.
    + unfold authenticateWithRetry. rewrite login_calls_emit.
      unfold login_calls. cbn. lia.
  - intros response c n Ht Hne Hst Hc. cbn zeta.
    change (CallGetAuthCookie (Some false)
            :: LoginSettled (length (logins s)) (Fulfilled response)
            :: replicate n (CallGetAuthCookie (Some false)))
      with ([CallGetAuthCookie (Some false);
             LoginSettled (length (logins s)) (Fulfilled response)]
            ++ replicate n (CallGetAuthCookie (Some false))).
    rewrite run_app, (first_login_resolves response c s Ht Hst Hc).
    rewrite run_cached_calls by (cbn; by destruct c).
    split; [|split; [done|]].
    + change (login_calls (set_logins ?l ?x)) with (login_calls x).
      rewrite login_calls_emit. unfold login_calls. cbn. lia.
    + intros i Hi. unfold login_promise. cbn -[lookup].
      rewrite <- app_assoc. cbn [app].
      change ({| ll_promise := Resolved (Some c); ll_then := ThenCaller;
                 ll_phase := Idle |} :: replicate n ?x)
        with (replicate (S n) x).
      rewrite lookup_replicate_after by lia. done.
Qed.


(** ** request *)

Lemma fmap_alter_phase ph r (l : list RequestLoop) :
  rq_promise <$> alter (set_rq_phase ph) r l = rq_promise <$> l.
Proof.
  revert r. induction l as [|q l IH]; intros [|r]; cbn; try done.
  f_equal. apply IH.
Qed.

Lemma fmap_alter_promise o r (l : list RequestLoop) :
  rq_promise <$> alter (set_rq_promise o) r l = <[r := o]> (rq_promise <$> l).
Proof.
  revert r. induction l as [|q l IH]; intros [|r]; cbn; try done.
  f_equal. apply IH.
Qed.

Lemma request_promises_phase ph r s :
  request_promises (alter_request (set_rq_phase ph) r s) = request_promises s.
Proof. apply fmap_alter_phase. Qed.

Lemma getAuthCookie_promises regenerate k s :
  request_promises (getAuthCookie regenerate k s).2 = request_promises s.
Proof. unfold getAuthCookie. by case_match. Qed.

Lemma sendRequest_promises r value s :
  request_promises (sendRequest r value s) = request_promises s.
Proof.
  unfold sendRequest. case_match; [|done].
  apply (request_promises_phase RInFlight r s).
Qed.

Lemma axiosRequest_promises r s :
  request_promises (axiosRequest r s) = request_promises s.
Proof.
  unfold axiosRequest.
  pose proof (getAuthCookie_promises None (ThenAxiosRequest r) s) as H.
  destruct (getAuthCookie None (ThenAxiosRequest r) s) as [p s1]. cbn in H.
  repeat case_match;
    rewrite ?sendRequest_promises, ?request_promises_phase; exact H.
Qed.

Lemma request_promises_new nodeId endpoint method body rt k s :
  request_promises (request nodeId endpoint method body rt k s).2
  = request_promises s ++ [Pending].
Proof.
  unfold request. cbn [snd]. rewrite axiosRequest_promises.
  unfold request_promises. cbn [requests set_requests].
  rewrite fmap_app. by repeat case_match.
Qed.

Lemma cookie_then_promises k value s :
  at_most_one_new (request_promises s)
    (request_promises (cookie_then k value s)).
Proof.
  destruct k as [|init|r]; unfold cookie_then.
  - by left.
  - right. unfold getBootstrap. rewrite request_promises_new.
    by case_bool_decide.
  - left. apply sendRequest_promises.
Qed.

Lemma refresh_promises init s :
  at_most_one_new (request_promises s) (request_promises (refresh init s)).
Proof.
  unfold refresh.
  pose proof (getAuthCookie_promises (Some true) (ThenRefresh init) s) as H.
  destruct (getAuthCookie (Some true) (ThenRefresh init) s) as [p s1].
  cbn in H. rewrite <- H.
  repeat case_match; try by left. apply cookie_then_promises.
Qed.

Lemma resolveCookie_promises l value s :
  at_most_one_new (request_promises s)
    (request_promises (resolveCookie l value s)).
Proof.
  unfold resolveCookie. repeat case_match; try by left.
  apply (cookie_then_promises _ _
           (alter_login (set_ll_promise (Resolved value)) l s)).
Qed.

Lemma onLoginSettled_promises l o s :
  at_most_one_new (request_promises s)
    (request_promises (onLoginSettled l o s)).
Proof.
  unfold onLoginSettled. destruct o as [response|reason].
  - case_match; [|by left].
    apply (resolveCookie_promises l _
             (set_authenticated true
                (set_authCookie (set_cookie response ≫= head)
                   (alter_login (set_ll_phase Idle) l s)))).
  - case_match; by left.
Qed.

Lemma settle_promises r o s :
  (request_promises s !! r = Some Pending
   /\ request_promises (settle r o s) = <[r := o]> (request_promises s))
  \/ request_promises (settle r o s) = request_promises s.
Proof.
  unfold settle. destruct (requests s !! r) as [q|] eqn:Hq; [|by right].
  destruct (rq_promise q) eqn:Hp; try by right.
  left. split.
  - unfold request_promises. by rewrite list_lookup_fmap, Hq; cbn; rewrite Hp.
  - transitivity (request_promises (alter_request (set_rq_promise o) r s)).
    + unfold request_then. by repeat case_match.
    + apply fmap_alter_promise.
Qed.

Lemma onRequestSettled_promises r o s :
  (request_promises s !! r = Some Pending
   /\ request_promises (onRequestSettled r o s)
      = <[r := outcome_promise o]> (request_promises s))
  \/ request_promises (onRequestSettled r o s) = request_promises s.
Proof.
  unfold onRequestSettled. destruct o as [response|error].
  - destruct (settle_promises r (Resolved (data response))
                (alter_request (set_rq_phase RIdle) r s)) as [[H1 H2]|H];
      rewrite request_promises_phase in *; [left|right]; done.
  - set (s1 := match error with HttpError _ _ => _ | _ => _ end).
    assert (Hs1 : request_promises s1 = request_promises s).
    { unfold s1. destruct error; try apply request_promises_phase.
      case_match; [|apply request_promises_phase].
      apply (request_promises_phase _ r
               (set_authCookie None (set_authenticated false s))). }
    destruct (settle_promises r (Rejected error) s1) as [[H1 H2]|H];
      rewrite Hs1 in *; [left|right]; done.
Qed.

(** Every callback leaves the request promises as they are, adds one
    pending promise, or is the answer to the Axios.request of a pending one
    and settles it with that answer. *)
Lemma step_promises s e :
  at_most_one_new (request_promises s) (request_promises (step s e))
  \/ exists r o,
       e = RequestSettled r o /\ request_promises s !! r = Some Pending
       /\ request_promises (step s e)
          = <[r := outcome_promise o]> (request_promises s).
Proof.
  destruct e as [regenerate|nodeId endpoint method body rt| |l o|r o|task|];
    cbn [step].
  - left. left. apply getAuthCookie_promises.
  - left. right. apply request_promises_new.
  - left. case_match; [apply refresh_promises|by left].
  - left. repeat case_match; try by left. apply onLoginSettled_promises.
  - repeat case_match; try by (left; left).
    destruct (onRequestSettled_promises r o s) as [[Hp Hs]|Hs].
    + right. by exists r, o.
    + left. by left.
  - left. left. destruct task; repeat case_match; try done.
    apply axiosRequest_promises.
  - left. by left.
Qed.

Lemma request_promise_lookup r s :
  request_promise r s = request_promises s !! r.
Proof. unfold request_promise, request_promises. by rewrite list_lookup_fmap. Qed.

(** A request promise is rejected only by the [catch] of its own
    Axios.request, and with the error that Axios.request was rejected
    with. *)
Lemma rejected_by_answer (events : list Event) s r error :
  request_promise r (run s events) = Some (Rejected error) ->
  request_promise r s = Some (Rejected error)
  \/ RequestSettled r (RejectedWith error) ∈ events.
Proof.
  revert s. induction events as [|e events IH]; intros s H; [by left|].
  rewrite run_cons in H. apply IH in H. destruct H as [H|H].
  2: { right. by apply list_elem_of_further. }
  rewrite request_promise_lookup in *.
  destruct (step_promises s e) as [[Hs|Hs]|(r' & o & -> & Hp & Hs)];
    rewrite Hs in H.
  - by left.
  - left. destruct (decide (r < length (request_promises s))%nat) as [Hlt|Hge].
    + by rewrite lookup_app_l in H.
    + rewrite lookup_app_r in H by lia.
      destruct (r - length (request_promises s))%nat as [|n];
        [discriminate|]. by destruct n.
  - destruct (decide (r = r')) as [->|Hne].
    + rewrite list_lookup_insert_eq in H by (by eapply lookup_lt_Some).
      destruct o as [response|error']; [discriminate|].
      injection H as ->. right. apply list_elem_of_here.
    + left. by rewrite list_lookup_insert_ne in H.
Qed.


(** The URL depends on the configuration only. *)
Lemma urlBuilder_config s s' endpoint :
  config s' = config s -> urlBuilder s' endpoint = urlBuilder s endpoint.
Proof. intros H. unfold urlBuilder. by rewrite H. Qed.

(** The state [request] is in once its argument checks are done. *)
Lemma argument_checks_frame endpoint method s :
  let s2 :=
    if truthy method
    then (if truthy endpoint then s
          else emit (UnhandledRejection (Error "endpoint cannot be empty!")) s)
    else emit (UnhandledRejection (Error "method cannot be empty!"))
           (if truthy endpoint then s
            else emit (UnhandledRejection (Error "endpoint cannot be empty!"))
                   s) in
  effects s2 = effects s ++ dropped_rejections endpoint method
  /\ config s2 = config s /\ credentials s2 = credentials s
  /\ nodeControllerType s2 = nodeControllerType s /\ aborted s2 = aborted s
  /\ authCookie s2 = authCookie s /\ logins s2 = logins s
  /\ requests s2 = requests s.
Proof.
  cbn zeta. unfold dropped_rejections.
  destruct (truthy endpoint), (truthy method); fields;
    rewrite ?app_nil_r, <- ?app_assoc; done.
Qed.

(** [axiosRequest] with a cookie at hand, and without. *)
Lemma axiosRequest_cached r s :
  truthy (authCookie s) = true ->
  axiosRequest r s
  = sendRequest r (authCookie s)
      (set_logins (logins s ++
         [{| ll_promise := Resolved (authCookie s);
             ll_then := ThenAxiosRequest r; ll_phase := Idle |}]) s).
Proof.
  intros Ht. unfold axiosRequest.
  rewrite getAuthCookie_cached by done.
  unfold login_promise. fields. by rewrite lookup_last.
Qed.

Lemma axiosRequest_uncached r s :
  truthy (authCookie s) = false ->
  axiosRequest r s
  = alter_request (set_rq_phase (RAwaitCookie (length (logins s)))) r
      (authenticateWithRetry (length (logins s))
         (set_logins (logins s ++
            [{| ll_promise := Pending; ll_then := ThenAxiosRequest r;
                ll_phase := Idle |}]) s)).
Proof.
  intros Ht. unfold axiosRequest.
  rewrite getAuthCookie_login by (by left).
  unfold login_promise, authenticateWithRetry. fields.
  by rewrite alter_last, lookup_last.
Qed.

(** With a cookie at hand the Axios.request goes out during the call. *)
Lemma request_cached nodeId endpoint method body rt k s :
  truthy (authCookie s) = true ->
  let rs := request nodeId endpoint method body rt k s in
  effects rs.2
  = effects s ++ dropped_rejections endpoint method
    ++ [AxiosRequest (urlBuilder s endpoint) method body
          (default EmptyString (authCookie s)) nodeId rt]
  /\ request_phase rs.1 rs.2 = Some RInFlight.
Proof.
  intros Ht. cbn zeta. unfold request.
  destruct (argument_checks_frame endpoint method s)
    as (He & Hc & _ & _ & _ & Hk & Hl & Hr).
  set (s2 := if truthy method then _ else _) in *.
  fields. rewrite axiosRequest_cached by (fields; by rewrite Hk).
  unfold sendRequest, request_phase. fields. rewrite lookup_last. fields.
  rewrite alter_last, lookup_last, He, Hk, (urlBuilder_config _ _ _ Hc).
  split; [|done]. by rewrite <- app_assoc.
Qed.

(** Without one the call logs in first, and the Axios.request goes out
    when the login is answered with status 200. *)
Lemma request_uncached nodeId endpoint method body rt k s :
  truthy (authCookie s) = false ->
  let rs := request nodeId endpoint method body rt k s in
  effects rs.2
  = effects s ++ dropped_rejections endpoint method
    ++ [LoginPost
          (urlBuilder s (Some (login_url (login (nodeControllerType s)))))
          (username (credentials s)) (password (credentials s)) (aborted s)]
  /\ request_phase rs.1 rs.2 = Some (RAwaitCookie (length (logins s)))
  /\ forall response, status response = 200 ->
       effects (step rs.2
                  (LoginSettled (length (logins s)) (Fulfilled response)))
       = effects rs.2
         ++ [AxiosRequest (urlBuilder s endpoint) method body
               (default EmptyString (set_cookie response ≫= head))
               nodeId rt].
Proof.
  intros Ht. cbn zeta. unfold request.
  destruct (argument_checks_frame endpoint method s)
    as (He & Hc & Hcr & Hct & Hab & Hk & Hl & Hr).
  set (s2 := if truthy method then _ else _) in *.
  fields. rewrite axiosRequest_uncached by (fields; by rewrite Hk).
  unfold authenticateWithRetry, request_phase. fields.
  rewrite Hl, alter_last, lookup_last. fields.
  split; [|split; [done|]].
  - rewrite He, Hcr, Hct, Hab, <- app_assoc.
    by erewrite urlBuilder_config by (fields; exact Hc).
  - intros response Hst. cbn [step]. unfold login_phase. fields.
    rewrite !alter_last, lookup_last. fields.
    unfold onLoginSettled. rewrite Hst. cbn [Z.eqb Pos.eqb]. fields.
    unfold resolveCookie. fields. rewrite !alter_last, lookup_last. fields.
    unfold cookie_then, sendRequest. fields.
    rewrite alter_last, lookup_last. fields.
    by rewrite (urlBuilder_config _ _ _ Hc).
Qed.

Lemma request_returns nodeId endpoint method body rt k s :
  let rs := request nodeId endpoint method body rt k s in
  rs.1 = length (requests s)
  /\ request_promise rs.1 rs.2 = Some Pending
  /\ rq_url <$> requests rs.2 !! rs.1 = Some (urlBuilder s endpoint).
Proof.
  cbn zeta.
  assert (Hp := request_promises_new nodeId endpoint method body rt k s).
  unfold request in *.
  destruct (argument_checks_frame endpoint method s)
    as (He & Hc & _ & _ & _ & Hk & Hl & Hr).
  set (s2 := if truthy method then _ else _) in *.
  fields. cbn [fst snd] in Hp. split; [by rewrite Hr|]. split.
  - rewrite request_promise_lookup, Hp, Hr.
    unfold request_promises. rewrite <- (length_fmap rq_promise).
    apply lookup_last.
  - destruct (truthy (authCookie s)) eqn:Ht.
    + rewrite axiosRequest_cached by (fields; by rewrite Hk).
      unfold sendRequest. fields. rewrite lookup_last. fields.
      rewrite alter_last, lookup_last. fields.
      by rewrite (urlBuilder_config _ _ _ Hc).
    + rewrite axiosRequest_uncached by (fields; by rewrite Hk).
      unfold authenticateWithRetry. fields.
      rewrite alter_last, lookup_last. fields.
      by rewrite (urlBuilder_config _ _ _ Hc).
Qed.
(** C10.  A call of [request] whose endpoint or method is empty or missing
    behaves like any other call: it returns a pending promise for a request
    to the URL built from the endpoint as given; with a cookie at hand the
    Axios.request goes out at once, without one it goes out when the login
    is answered; the errors of the argument checks only appear as unhandled
    rejections; and the returned promise is never rejected except with the
    error of its own Axios.request. *)
Theorem request_drops_argument_checks nodeId endpoint method body rt k s :
  truthy endpoint = false \/ truthy method = false ->
  let rs := request nodeId endpoint method body rt k s in
  dropped_rejections endpoint method <> []
  /\ request_promise rs.1 rs.2 = Some Pending
  /\ rq_url <$> requests rs.2 !! rs.1 = Some (urlBuilder s endpoint)
  /\ (truthy (authCookie s) = true ->
        effects rs.2
        = effects s ++ dropped_rejections endpoint method
          ++ [AxiosRequest (urlBuilder s endpoint) method body
                (default EmptyString (authCookie s)) nodeId rt])
  /\ (truthy (authCookie s) = false ->
        request_phase rs.1 rs.2 = Some (RAwaitCookie (length (logins s)))
        /\ forall response, status response = 200 ->
             effects (step rs.2
                        (LoginSettled (length (logins s)) (Fulfilled response)))
             = effects rs.2
               ++ [AxiosRequest (urlBuilder s endpoint) method body
                     (default EmptyString (set_cookie response ≫= head))
                     nodeId rt])
  /\ (forall (events : list Event) error,
        request_promise rs.1 (run rs.2 events) = Some (Rejected error) ->
        RequestSettled rs.1 (RejectedWith error) ∈ events).
Proof.
  intros Hbad rs.
  destruct (request_returns nodeId endpoint method body rt k s)
    as (Hr & Hp & Hu).
  fold rs in Hr, Hp, Hu.
  split; [|split; [exact Hp|split; [exact Hu|split; [|split]]]].
  - unfold dropped_rejections. by destruct Hbad as [-> | ->]; case_match.
  - intros Ht. apply (request_cached nodeId endpoint method body rt k s Ht).
  - intros Ht.
    destruct (request_uncached nodeId endpoint method body rt k s Ht)
      as (_ & H2 & H3). by split.
  - intros events error Hrej.
    apply rejected_by_answer in Hrej as [Hrej|Hrej]; [|exact Hrej].
    rewrite Hp in Hrej. discriminate.
Qed.

(** ** The retry loops *)

Lemma login_phase_alter ph l s :
  is_Some (logins s !! l) ->
  login_phase l (alter_login (set_ll_phase ph) l s) = Some ph.
Proof.
  intros [loop Hl]. unfold login_phase, alter_login. cbn -[lookup alter].
  by rewrite list_lookup_alter_eq, Hl.
Qed.

Lemma login_promise_alter_phase ph l l' s :
  login_promise l' (alter_login (set_ll_phase ph) l s) = login_promise l' s.
Proof.
  unfold login_promise, alter_login. cbn -[lookup alter].
  destruct (decide (l = l')) as [->|Hne].
  - rewrite list_lookup_alter_eq. by destruct (logins s !! l').
  - by rewrite list_lookup_alter_ne.
Qed.

(** The [catch] of the login call: the credential is cleared; unless the
    node is stopped a timer is set with the variant's delay, and when it
    fires the login call is made again; the promise stays pending. *)
Lemma login_rejected_retries l reason s :
  login_phase l s = Some InFlight ->
  let s' := step s (LoginSettled l (RejectedWith reason)) in
  auth_state s' = (false, None)
  /\ login_promise l s' = login_promise l s
  /\ (stopped s = false ->
        login_phase l s' = Some (Scheduled (retryDelay s))
        /\ effects s'
           = effects s ++ [SetTimeout (TaskAuthenticate l) (retryDelay s)]
        /\ login_phase l (step s' (TimerFires (TaskAuthenticate l))) = Some InFlight
        /\ login_calls (step s' (TimerFires (TaskAuthenticate l)))
           = S (login_calls s'))
  /\ (stopped s = true ->
        login_phase l s' = Some Idle /\ effects s' = effects s).
Proof.
  intros Hph. cbn zeta. cbn [step]. rewrite Hph.
  assert (Hl : is_Some (logins s !! l)).
  { unfold login_phase in Hph. destruct (logins s !! l); [by eexists|done]. }
  unfold onLoginSettled.
  change (stopped (set_authCookie None (set_authenticated false s)))
    with (stopped s).
  destruct (stopped s) eqn:Hst.
  - split; [done|]. split; [by rewrite login_promise_alter_phase|].
    split; [done|]. intros _. split; [|done].
    by apply (login_phase_alter _ l
                (set_authCookie None (set_authenticated false s))).
  - split; [done|].
    split.
    { transitivity
        (login_promise l
           (alter_login (set_ll_phase (Scheduled (retryDelay s))) l
              (set_authCookie None (set_authenticated false s))));
        [reflexivity|]. by rewrite login_promise_alter_phase. }
    split; [|done]. intros _.
    set (s1 := emit _ _).
    assert (Hs1 : login_phase l s1 = Some (Scheduled (retryDelay s))).
    { apply (login_phase_alter _ l
               (set_authCookie None (set_authenticated false s))), Hl. }
    split; [exact Hs1|]. split; [done|].
    cbn [step]. rewrite Hs1. split.
    + unfold authenticateWithRetry.
      apply (login_phase_alter InFlight l s1).
      unfold login_phase in Hs1. by destruct (logins s1 !! l).
    + unfold authenticateWithRetry. rewrite login_calls_emit. cbn.
      unfold login_calls. cbn. lia.
Qed.

(** The [catch] of Axios.request on a 401: the credential is cleared and one
    timer is set for the resend, whether or not the node is stopped; the
    promise of the call, if it was pending, is rejected with the 401. *)
Lemma unauthorized_resends_and_rejects r message s :
  request_phase r s = Some RInFlight ->
  request_promise r s = Some Pending ->
  let error := HttpError 401 message in
  let s' := step s (RequestSettled r (RejectedWith error)) in
  auth_state s' = (false, None)
  /\ effects s'
     = effects s ++ [SetTimeout (TaskAxiosRequest r) (retryDelay s)]
  /\ request_promise r s' = Some (Rejected error).
Proof.
  intros Hph Hp. cbn zeta. cbn [step]. rewrite Hph.
  split; [by rewrite onRequestSettled_auth|].
  assert (Hq : exists q, requests s !! r = Some q /\ rq_promise q = Pending).
  { unfold request_promise in Hp. destruct (requests s !! r) as [q|]; [|done].
    exists q. split; [done|]. by injection Hp. }
  destruct Hq as (q & Hq & Hqp).
  unfold onRequestSettled, settle, alter_request.
  cbn -[lookup alter]. rewrite list_lookup_alter_eq, Hq. cbn -[lookup alter].
  rewrite Hqp. destruct (rq_then q); cbn -[lookup alter].
  all: split; [done|].
  all: unfold request_promise; cbn -[lookup alter].
  all: by rewrite !list_lookup_alter_eq, Hq.
Qed.


(** ** The promise of getAuthCookie is never rejected *)

Lemma unrejected_phase ph l s :
  no_cookie_promise_rejected s ->
  no_cookie_promise_rejected (alter_login (set_ll_phase ph) l s).
Proof. intros H. apply Forall_alter; [exact H|]. by intros loop _ Hl. Qed.

Lemma unrejected_resolved value l s :
  no_cookie_promise_rejected s ->
  no_cookie_promise_rejected
    (alter_login (set_ll_promise (Resolved value)) l s).
Proof. intros H. apply Forall_alter; [exact H|]. by intros loop _ Hl. Qed.

Lemma getAuthCookie_unrejected regenerate k s :
  no_cookie_promise_rejected s ->
  no_cookie_promise_rejected (getAuthCookie regenerate k s).2.
Proof.
  intros H. unfold getAuthCookie. case_match; cbn [snd].
  - apply Forall_app. split; [exact H|]. by apply Forall_singleton.
  - apply (unrejected_phase InFlight).
    apply Forall_app. split; [exact H|]. by apply Forall_singleton.
Qed.

Lemma sendRequest_unrejected r value s :
  no_cookie_promise_rejected s ->
  no_cookie_promise_rejected (sendRequest r value s).
Proof. intros H. unfold sendRequest. by case_match. Qed.

Lemma axiosRequest_unrejected r s :
  no_cookie_promise_rejected s -> no_cookie_promise_rejected (axiosRequest r s).
Proof.
  intros H. unfold axiosRequest.
  pose proof (getAuthCookie_unrejected None (ThenAxiosRequest r) s H) as H1.
  destruct (getAuthCookie None (ThenAxiosRequest r) s) as [p s1]. cbn in H1.
  repeat case_match; try exact H1. by apply sendRequest_unrejected.
Qed.

Lemma request_unrejected nodeId endpoint method body rt k s :
  no_cookie_promise_rejected s ->
  no_cookie_promise_rejected (request nodeId endpoint method body rt k s).2.
Proof.
  intros H. unfold request. cbn [snd]. apply axiosRequest_unrejected.
  by repeat case_match.
Qed.

Lemma cookie_then_unrejected k value s :
  no_cookie_promise_rejected s ->
  no_cookie_promise_rejected (cookie_then k value s).
Proof.
  intros H. destruct k as [|init|r]; unfold cookie_then.
  - exact H.
  - apply request_unrejected. by case_bool_decide.
  - by apply sendRequest_unrejected.
Qed.

Lemma refresh_unrejected init s :
  no_cookie_promise_rejected s -> no_cookie_promise_rejected (refresh init s).
Proof.
  intros H. unfold refresh.
  pose proof (getAuthCookie_unrejected (Some true) (ThenRefresh init) s H)
    as H1.
  destruct (getAuthCookie (Some true) (ThenRefresh init) s) as [p s1].
  cbn in H1. repeat case_match; try exact H1.
  by apply cookie_then_unrejected.
Qed.

Lemma settle_unrejected r o s :
  no_cookie_promise_rejected s -> no_cookie_promise_rejected (settle r o s).
Proof. intros H. unfold settle, request_then. by repeat case_match. Qed.

Lemma onLoginSettled_unrejected l o s :
  no_cookie_promise_rejected s ->
  no_cookie_promise_rejected (onLoginSettled l o s).
Proof.
  intros H. unfold onLoginSettled. destruct o as [response|reason].
  - case_match; [|by apply unrejected_phase].
    unfold resolveCookie.
    repeat case_match; try by apply (unrejected_phase Idle l s).
    apply cookie_then_unrejected, unrejected_resolved.
    by apply (unrejected_phase Idle l s).
  - case_match; by apply (unrejected_phase _ l s).
Qed.

Lemma onRequestSettled_unrejected r o s :
  no_cookie_promise_rejected s ->
  no_cookie_promise_rejected (onRequestSettled r o s).
Proof.
  intros H. unfold onRequestSettled.
  destruct o as [response|error]; apply settle_unrejected; [exact H|].
  destruct error; try exact H. by case_match.
Qed.

Lemma step_unrejected s e :
  no_cookie_promise_rejected s -> no_cookie_promise_rejected (step s e).
Proof.
  intros H.
  destruct e as [regenerate|nodeId endpoint method body rt| |l o|r o|task|];
    cbn [step].
  - by apply getAuthCookie_unrejected.
  - by apply request_unrejected.
  - case_match; [by apply refresh_unrejected|exact H].
  - repeat case_match; try exact H. by apply onLoginSettled_unrejected.
  - repeat case_match; try exact H. by apply onRequestSettled_unrejected.
  - destruct task; repeat case_match; try exact H.
    + by apply (unrejected_phase InFlight).
    + by apply axiosRequest_unrejected.
  - exact H.
Qed.

(** Whatever happens to a node after its construction, no promise returned
    by [getAuthCookie] is rejected: it is pending or resolved. *)
Lemma cookie_promise_never_rejected cfg creds nodeId (events : list Event)
    l error :
  login_promise l (run (body cfg creds nodeId) events) <> Some (Rejected error).
Proof.
  assert (H : no_cookie_promise_rejected (run (body cfg creds nodeId) events)).
  { assert (H0 : no_cookie_promise_rejected (body cfg creds nodeId))
      by (apply refresh_unrejected, Forall_nil_2).
    revert H0. generalize (body cfg creds nodeId).
    induction events as [|e events IH]; intros s Hs; [exact Hs|].
    rewrite run_cons. apply IH. by apply step_unrejected. }
  unfold login_promise. intros Heq.
  destruct (logins _ !! l) as [loop|] eqn:Hl; [|done].
  injection Heq as Heq.
  eapply Forall_lookup_1 in H; [|exact Hl]. by apply (H error).
Qed.

End SessionProperties.

(** * Properties of the shared channel *)

Section ChannelProperties.
Context `{endpoints : EndpointTable}.
Context {any : Type} `{decoders : Decoders any}.
Implicit Types (c : SharedProtectWebSocket) (v : any) (frame : string).

Lemma dispatch_map_to_list v c :
  dispatch v c
  = (fun p => Invoke p.1 (callback p.2) v) <$> map_to_list (callbacks c).
Proof.
  unfold dispatch, Object_keys.
  assert (Hall : forall k i, (k, i) ∈ map_to_list (callbacks c) ->
                             callbacks c !! k = Some i)
    by (intros k i; apply elem_of_map_to_list).
  induction (map_to_list (callbacks c)) as [|[k i] l IH]; [done|].
  cbn [fmap list_fmap flat_map fst snd].
  rewrite (Hall k i) by apply list_elem_of_here.
  cbn [app]. f_equal. apply IH.
  intros k' i' Hin. apply Hall. by apply list_elem_of_further.
Qed.


Lemma invocations_dispatch v c :
  invocations (dispatch v c)
  = (fun p => (p.1, callback p.2, v)) <$> map_to_list (callbacks c).
Proof.
  rewrite dispatch_map_to_list. unfold invocations.
  induction (map_to_list (callbacks c)) as [|p l IH]; [done|].
  cbn. by rewrite IH.
Qed.




(** On the socket [Connect] set up, a 'message' runs the frame handler and
    nothing else. *)
Lemma ws_emit_message frame c :
  connected c -> ws_emit (WsMessage frame) c = onMessage frame c.
Proof.
  intros (ws & Hws & Hon). unfold ws_emit. rewrite Hws, Hon.
  cbn. case_decide; [|done]. cbn. by destruct (onMessage frame c).
Qed.

Lemma onMessage_channel frame c : (onMessage frame c).1 = c.
Proof.
  unfold onMessage.
  destruct (JSON_parse frame); [done|]. by destruct (decodeUpdatePacket frame).
Qed.

Lemma onMessage_decoded frame v c :
  decodes_to frame v -> invocations (onMessage frame c).2 = invocations (dispatch v c).
Proof.
  unfold onMessage. intros [->|[-> ->]]; done.
Qed.

Lemma Connect_connected cookie c : connected (Connect (any := any) cookie c).1.
Proof. cbn. eexists. split; reflexivity. Qed.

Lemma Connect_callbacks cookie c : callbacks (Connect (any := any) cookie c).1 = callbacks c.
Proof. reflexivity. Qed.

Lemma registerInterest_connected n i c : connected c -> connected (registerInterest n i c).
Proof. intros H. exact H. Qed.

Lemma degisterInterest_connected n c : connected c -> connected (degisterInterest n c).
Proof. intros H. exact H. Qed.



Lemma run_listener_channel h e c : (run_listener h e c).1 = c.
Proof. destruct h, e; cbn; [apply onMessage_channel|done|done]. Qed.








(** C3.  [Connect] adds a listener for 'message' and for nothing else.
    When the socket it set up emits 'close', no listener runs: no timer is
    set and no new socket is opened.  When it emits 'error', the emitter
    throws.  The channel is the same afterwards. *)
Theorem close_and_error_do_not_reconnect cookie c code reason :
  let c1 := (Connect (any := any) cookie c).1 in
  ws_emit (any := any) (WsClose code) c1 = (c1, [])
  /\ ws_emit (any := any) (WsError reason) c1 = (c1, [UncaughtException]).
Proof. split; reflexivity. Qed.

(** The registry is a field of the channel, not of the socket: a later
    [Connect] leaves it as it is, and the new socket's frames reach the
    interests registered before. *)
Lemma Connect_keeps_interests cookie c frame v :
  decodes_to frame v ->
  let c2 := (Connect (any := any) cookie c).1 in
  callbacks c2 = callbacks c
  /\ invocations (ws_emit (WsMessage frame) c2).2
     = (fun p => (p.1, callback p.2, v)) <$> map_to_list (callbacks c).
Proof.
  intros Hd c2. split; [done|].
  rewrite (ws_emit_message _ _ (Connect_connected cookie c)).
  rewrite (onMessage_decoded _ _ _ Hd). exact (invocations_dispatch v c2).
Qed.

End ChannelProperties.

(** C9.  [registerInterest] writes one key of the registry: a second
    registration under the same key replaces the first, registering the same
    pair twice is registering it once, and the other keys keep their
    registrations. *)
Theorem registerInterest_upsert nodeId (i1 i2 : Interest) c :
  registerInterest nodeId i2 (registerInterest nodeId i1 c)
  = registerInterest nodeId i2 c
  /\ registerInterest nodeId i1 (registerInterest nodeId i1 c)
     = registerInterest nodeId i1 c
  /\ callbacks (registerInterest nodeId i1 c) !! nodeId = Some i1
  /\ (forall other, other ≠ nodeId ->
        callbacks (registerInterest nodeId i1 c) !! other
        = callbacks c !! other).
Proof.
  unfold registerInterest, set_callbacks. cbn.
  split; [by rewrite insert_insert_eq|].
  split; [by rewrite insert_insert_eq|].
  split; [apply lookup_insert_eq|].
  intros other Hne. by apply lookup_insert_ne.
Qed.

(** * Further properties of the session manager *)

Section UrlProperties.
Context `{endpoints : EndpointTable}.







End UrlProperties.

Section LifecycleProperties.
Context `{endpoints : EndpointTable}.
Implicit Types (self s : Node) (l r p : nat) (e : Event).

(** ** Everything but the close handler extends the effect log routinely *)

Lemma routine_ext s s' (x : Effect) :
  statics s' = statics s -> lifecycle s' = lifecycle s ->
  routine s' x <-> routine s x.
Proof.
  unfold statics, lifecycle. intros Hs Hl.
  injection Hs as Hc Hcr _ Hct. injection Hl as _ Hab _.
  destruct x; cbn; try done.
  - unfold loginUrl, urlBuilder. by rewrite Hc, Hcr, Hct, Hab.
  - unfold retryDelay. by rewrite Hct.
Qed.

Lemma extends_refl s : extends s s.
Proof.
  split; [done|]. split; [done|]. exists []. by rewrite app_nil_r.
Qed.

Lemma extends_trans s1 s2 s3 : extends s1 s2 -> extends s2 s3 -> extends s1 s3.
Proof.
  intros (Hs & Hl & n1 & He1 & Hn1) (Hs' & Hl' & n2 & He2 & Hn2).
  split; [congruence|]. split; [congruence|].
  exists (n1 ++ n2). split; [by rewrite He2, He1, app_assoc|].
  apply Forall_app. split; [exact Hn1|].
  eapply Forall_impl; [exact Hn2|]. intros x. by apply routine_ext.
Qed.

Lemma extends_quiet s s' :
  statics s' = statics s -> lifecycle s' = lifecycle s ->
  effects s' = effects s -> extends s s'.
Proof.
  intros Hs Hl He. split; [done|]. split; [done|].
  exists []. by rewrite app_nil_r.
Qed.

Lemma extends_emit s (x : Effect) : routine s x -> extends s (emit x s).
Proof.
  intros Hx. split; [done|]. split; [done|].
  exists [x]. split; [done|]. by apply Forall_singleton.
Qed.

Lemma extends_emit_after s s' (x : Effect) :
  extends s s' -> routine s x -> extends s (emit x s').
Proof.
  intros H Hx. eapply extends_trans; [exact H|].
  apply extends_emit. destruct H as (Hs & Hl & _).
  by apply (proj2 (routine_ext s s' x Hs Hl)).
Qed.

Lemma authenticateWithRetry_extends l s :
  extends s (authenticateWithRetry l s).
Proof.
  unfold authenticateWithRetry.
  apply extends_emit_after; [by apply extends_quiet|]. by cbn.
Qed.

Lemma getAuthCookie_extends regenerate k s :
  extends s (getAuthCookie regenerate k s).2.
Proof.
  unfold getAuthCookie. case_match; cbn [snd].
  - by apply extends_quiet.
  - eapply extends_trans; [|apply authenticateWithRetry_extends].
    by apply extends_quiet.
Qed.

Lemma sendRequest_extends r value s : extends s (sendRequest r value s).
Proof.
  unfold sendRequest. case_match; [|apply extends_refl].
  apply extends_emit_after; [by apply extends_quiet|]. by cbn.
Qed.

Lemma axiosRequest_extends r s : extends s (axiosRequest r s).
Proof.
  unfold axiosRequest.
  pose proof (getAuthCookie_extends None (ThenAxiosRequest r) s) as H.
  destruct (getAuthCookie None (ThenAxiosRequest r) s) as [p s1]. cbn in H.
  repeat case_match;
    (eapply extends_trans; [exact H|]);
    try apply sendRequest_extends; by apply extends_quiet.
Qed.

Lemma request_extends nodeId endpoint method body rt k s :
  extends s (request nodeId endpoint method body rt k s).2.
Proof.
  unfold request. cbn [snd].
  set (s1 := if truthy endpoint then s else _).
  set (s2 := if truthy method then s1 else _).
  assert (H1 : extends s s1)
    by (unfold s1; case_match; [apply extends_refl|by apply extends_emit]).
  assert (H2 : extends s1 s2)
    by (unfold s2; case_match; [apply extends_refl|by apply extends_emit]).
  eapply extends_trans; [exact (extends_trans _ _ _ H1 H2)|].
  eapply extends_trans; [|apply axiosRequest_extends]. by apply extends_quiet.
Qed.

Lemma cookie_then_extends k value s : extends s (cookie_then k value s).
Proof.
  destruct k as [|init|r]; unfold cookie_then.
  - apply extends_refl.
  - eapply extends_trans; [|apply request_extends].
    case_bool_decide; [by apply extends_quiet|apply extends_refl].
  - apply sendRequest_extends.
Qed.

Lemma refresh_extends init s : extends s (refresh init s).
Proof.
  unfold refresh.
  pose proof (getAuthCookie_extends (Some true) (ThenRefresh init) s) as H.
  destruct (getAuthCookie (Some true) (ThenRefresh init) s) as [p s1].
  cbn in H. repeat case_match; try exact H.
  eapply extends_trans; [exact H|apply cookie_then_extends].
Qed.

Lemma settle_extends r o s : extends s (settle r o s).
Proof.
  unfold settle, request_then.
  repeat case_match; try apply extends_refl; try by apply extends_quiet.
  apply extends_emit_after; [by apply extends_quiet|]. by cbn.
Qed.

Lemma resolveCookie_extends l value s : extends s (resolveCookie l value s).
Proof.
  unfold resolveCookie. repeat case_match; try apply extends_refl.
  eapply extends_trans; [|apply cookie_then_extends]. by apply extends_quiet.
Qed.

Lemma onLoginSettled_extends l o s : extends s (onLoginSettled l o s).
Proof.
  unfold onLoginSettled. destruct o as [response|reason].
  - case_match; [|by apply extends_quiet].
    eapply extends_trans; [|apply resolveCookie_extends].
    by apply extends_quiet.
  - case_match; [by apply extends_quiet|].
    apply extends_emit_after; [by apply extends_quiet|]. by cbn.
Qed.

Lemma onRequestSettled_extends r o s : extends s (onRequestSettled r o s).
Proof.
  unfold onRequestSettled.
  destruct o as [response|error];
    (eapply extends_trans; [|apply settle_extends]);
    [by apply extends_quiet|].
  destruct error; try by apply extends_quiet.
  case_match; [|by apply extends_quiet].
  apply extends_emit_after; [by apply extends_quiet|]. by cbn.
Qed.

Lemma step_extends s e : is_close e = false -> extends s (step s e).
Proof.
  intros Hc.
  destruct e as [regenerate|nodeId endpoint method body rt| |l o|r o|task|];
    cbn [step]; try discriminate.
  - apply getAuthCookie_extends.
  - apply request_extends.
  - case_match; [apply refresh_extends|apply extends_refl].
  - repeat case_match; try apply extends_refl. apply onLoginSettled_extends.
  - repeat case_match; try apply extends_refl. apply onRequestSettled_extends.
  - destruct task; repeat case_match; try apply extends_refl.
    + apply authenticateWithRetry_extends.
    + apply axiosRequest_extends.
Qed.

Lemma step_statics s e : statics (step s e) = statics s.
Proof.
  destruct (is_close e) eqn:Hc; [by destruct e|].
  by destruct (step_extends s e Hc).
Qed.

Lemma run_statics (events : list Event) s : statics (run s events) = statics s.
Proof.
  revert s. induction events as [|e events IH]; intros s; [done|].
  rewrite run_cons, IH. apply step_statics.
Qed.


Lemma close_lifecycle s : lifecycle (close s) = (true, true, false).
Proof. reflexivity. Qed.

Lemma close_effects s :
  effects (close s)
  = effects s ++ [ClearTimeout; AbortSignal; LogoutPost (logoutUrl s)].
Proof.
  unfold close, logoutUrl. cbn -[urlBuilder]. rewrite <- !app_assoc.
  reflexivity.
Qed.

Lemma lifecycle_closed_run (events : list Event) s :
  lifecycle s = (true, true, false) ->
  lifecycle (run s events) = (true, true, false).
Proof.
  revert s. induction events as [|e events IH]; intros s Hs; [exact Hs|].
  rewrite run_cons. apply IH.
  destruct (is_close e) eqn:Hc; [by destruct e|].
  destruct (step_extends s e Hc) as (_ & Hl & _). congruence.
Qed.

(** X2.  Once the close handler has run, the node stays stopped, the signal
    stays aborted and the refresh interval stays cleared, whatever happens
    afterwards: a tick of the refresh interval does nothing any more, and a
    login call that fails sets no timer.  What the node was constructed with
    never changes. *)
Theorem close_is_permanent s (events : list Event) :
  let s' := run (step s Close) events in
  stopped s' = true /\ aborted s' = true /\ refreshTimeout s' = false
  /\ step s' RefreshTick = s'
  /\ (forall l reason,
        effects (step s' (LoginSettled l (RejectedWith reason))) = effects s')
  /\ statics s' = statics s.
Proof.
  intros s'.
  assert (Hl : lifecycle s' = (true, true, false))
    by (apply lifecycle_closed_run, close_lifecycle).
  unfold lifecycle in Hl. injection Hl as Hst Hab Hrt.
  split; [exact Hst|]. split; [exact Hab|]. split; [exact Hrt|].
  split; [by cbn [step]; rewrite Hrt|]. split.
  - intros l reason.
    destruct (login_phase l s') as [[| |d]|] eqn:Hph;
      try (by cbn [step]; rewrite Hph).
    by destruct (login_rejected_retries l reason s' Hph)
      as (_ & _ & _ & Hstop); destruct (Hstop Hst).
  - unfold s'. by rewrite run_statics, step_statics.
Qed.

(** ** The calls the node makes *)

Lemma routine_no_logout s (new : list Effect) :
  Forall (routine s) new -> filter (fun x => is_logout x = true) new = [].
Proof.
  induction 1 as [|x new Hx Hnew IH]; [done|].
  rewrite filter_cons_False; [exact IH|]. by destruct x.
Qed.

Lemma logout_calls_step s e :
  logout_calls (step s e)
  = (logout_calls s + if is_close e then 1 else 0)%nat.
Proof.
  unfold logout_calls. destruct (is_close e) eqn:Hc.
  - destruct e; try discriminate. cbn [step].
    rewrite close_effects, filter_app, length_app.
    rewrite !filter_cons_False by discriminate.
    by rewrite filter_cons_True.
  - destruct (step_extends s e Hc) as (_ & _ & new & -> & Hnew).
    rewrite filter_app, length_app, (routine_no_logout s new Hnew). done.
Qed.

Lemma logout_calls_run (events : list Event) s :
  logout_calls (run s events) = (logout_calls s + closes events)%nat.
Proof.
  revert s. induction events as [|e events IH]; intros s.
  - cbn. unfold closes. cbn. lia.
  - rewrite run_cons, IH, logout_calls_step. unfold closes.
    destruct (is_close e) eqn:Hc.
    + rewrite filter_cons_True by done. cbn. lia.
    + rewrite filter_cons_False by (by rewrite Hc). lia.
Qed.

Lemma body_extends cfg creds nodeId :
  exists new,
    effects (body cfg creds nodeId) = SetInterval 2700000 :: new
    /\ Forall (routine (body cfg creds nodeId)) new
    /\ lifecycle (body cfg creds nodeId) = (false, false, true)
    /\ statics (body cfg creds nodeId)
       = (cfg, creds, nodeId, default UniFiOSConsole (controllerType cfg)).
Proof.
  unfold body.
  destruct (refresh_extends (Some true)
              {| config := cfg; credentials := creds; id := nodeId;
                 initialized := false; authenticated := false;
                 stopped := false;
                 nodeControllerType :=
                   default UniFiOSConsole (controllerType cfg);
                 aborted := false; authCookie := None;
                 bootstrapObject := None; refreshTimeout := true;
                 logins := []; requests := [];
                 effects := [SetInterval 2700000] |})
    as (Hs & Hl & new & He & Hnew).
  exists new. split; [exact He|]. split; [|by split].
  eapply Forall_impl; [exact Hnew|]. intros x Hx.
  by apply (proj2 (routine_ext _ _ x Hs Hl)).
Qed.

(** X3.  The node logs out once for every run of its close handler and at no
    other time. *)
Theorem one_logout_per_close cfg creds nodeId (events : list Event) :
  logout_calls (run (body cfg creds nodeId) events) = closes events.
Proof.
  rewrite logout_calls_run.
  destruct (body_extends cfg creds nodeId) as (new & He & Hnew & _).
  unfold logout_calls at 1. rewrite He.
  rewrite filter_cons_False by discriminate.
  by rewrite (routine_no_logout _ new Hnew).
Qed.


Lemma as_configured_ext s0 s (x : Effect) :
  statics s = statics s0 -> as_configured s x <-> as_configured s0 x.
Proof.
  unfold statics. intros Hs. injection Hs as Hc Hcr _ Hct.
  destruct x; cbn; try done.
  - unfold loginUrl, urlBuilder. by rewrite Hc, Hcr, Hct.
  - unfold logoutUrl, urlBuilder. by rewrite Hc, Hct.
  - unfold retryDelay. by rewrite Hct.
Qed.

Lemma routine_as_configured s (x : Effect) : routine s x -> as_configured s x.
Proof. destruct x; cbn; try done. by intros (? & ? & ? & _). Qed.

Lemma as_configured_step s e :
  Forall (as_configured s) (effects s) ->
  Forall (as_configured s) (effects (step s e)).
Proof.
  intros H. destruct (is_close e) eqn:Hc.
  - destruct e; try discriminate. cbn [step]. rewrite close_effects.
    apply Forall_app. split; [exact H|]. by repeat constructor.
  - destruct (step_extends s e Hc) as (_ & _ & new & -> & Hnew).
    apply Forall_app. split; [exact H|].
    eapply Forall_impl; [exact Hnew|]. apply routine_as_configured.
Qed.

Lemma as_configured_run (events : list Event) s0 s :
  statics s = statics s0 ->
  Forall (as_configured s0) (effects s) ->
  Forall (as_configured s0) (effects (run s events)).
Proof.
  revert s. induction events as [|e events IH]; intros s Hs H; [exact H|].
  rewrite run_cons. apply IH; [by rewrite step_statics|].
  eapply Forall_impl; [apply as_configured_step|].
  - eapply Forall_impl; [exact H|]. intros x. by apply as_configured_ext.
  - intros x. by apply as_configured_ext.
Qed.

(** X4.  Whatever happens to a node, every login call it makes goes to the login
    URL of its configuration with the stored user name and password, every
    logout call goes to the logout URL, every retry timer has the delay of
    the controller variant, and the refresh interval is 45 minutes; the
    variant is the configured one, or the OS console when none is
    configured. *)
Theorem calls_are_as_configured cfg creds nodeId (events : list Event) :
  let origin := body cfg creds nodeId in
  Forall (as_configured origin) (effects (run origin events))
  /\ statics (run origin events)
     = (cfg, creds, nodeId, default UniFiOSConsole (controllerType cfg)).
Proof.
  intros origin.
  destruct (body_extends cfg creds nodeId) as (new & He & Hnew & _ & Hs).
  split; [|by rewrite run_statics].
  apply as_configured_run; [done|]. fold origin in He, Hnew. rewrite He.
  constructor; [done|].
  eapply Forall_impl; [exact Hnew|]. apply routine_as_configured.
Qed.

(** ** The abort signal *)

Lemma signals_consistent_app ab (l new : list Effect) :
  signals_consistent ab (l ++ new)
  <-> signals_consistent ab l
      /\ signals_consistent (ab || existsb is_abort l) new.
Proof.
  revert ab. induction l as [|x l IH]; intros ab.
  - cbn. rewrite orb_false_r. tauto.
  - destruct x; cbn [app signals_consistent existsb is_abort];
      rewrite ?IH, ?orb_false_l, ?orb_true_l, ?orb_true_r; tauto.
Qed.

Lemma routine_signals s (new : list Effect) :
  Forall (routine s) new ->
  signals_consistent (aborted s) new /\ existsb is_abort new = false.
Proof.
  induction 1 as [|x new Hx Hnew [IH1 IH2]]; [done|].
  destruct x; cbn in *; try done. by destruct Hx as (_ & _ & _ & ->).
Qed.

Lemma signals_at ab (l1 l2 : list Effect) url user pass flag :
  signals_consistent ab (l1 ++ LoginPost url user pass flag :: l2) ->
  flag = ab || existsb is_abort l1.
Proof.
  intros H. apply signals_consistent_app in H as [_ H]. by destruct H.
Qed.

Lemma signals_step s e :
  signals_consistent false (effects s) ->
  aborted s = existsb is_abort (effects s) ->
  signals_consistent false (effects (step s e))
  /\ aborted (step s e) = existsb is_abort (effects (step s e)).
Proof.
  intros Hsc Hab. destruct (is_close e) eqn:Hc.
  - destruct e; try discriminate. cbn [step]. rewrite close_effects. split.
    + apply signals_consistent_app. by split.
    + rewrite existsb_app. cbn. by rewrite orb_true_r.
  - destruct (step_extends s e Hc) as (_ & Hl & new & He & Hnew).
    destruct (routine_signals s new Hnew) as [H1 H2].
    assert (Hab' : aborted (step s e) = aborted s)
      by exact (f_equal (fun t => t.1.2) Hl).
    rewrite He, Hab', existsb_app, H2, orb_false_r. split; [|exact Hab].
    apply signals_consistent_app. split; [exact Hsc|].
    by rewrite orb_false_l, <- Hab.
Qed.

(** X5.  A login call carries the aborted signal exactly when the close handler
    has aborted the signal before the call: every login call made after the
    close is made with the aborted signal, and none before it. *)
Theorem login_calls_carry_the_signal cfg creds nodeId (events : list Event)
    (before after : list Effect) url user pass flag :
  effects (run (body cfg creds nodeId) events)
  = before ++ LoginPost url user pass flag :: after ->
  flag = existsb is_abort before.
Proof.
  intros Hsplit. apply (signals_at false before after url user pass).
  rewrite <- Hsplit. clear Hsplit.
  assert (H0 : signals_consistent false (effects (body cfg creds nodeId))
               /\ aborted (body cfg creds nodeId)
                  = existsb is_abort (effects (body cfg creds nodeId))).
  { destruct (body_extends cfg creds nodeId) as (new & He & Hnew & Hl & _).
    destruct (routine_signals _ new Hnew) as [H1 H2].
    assert (Hab : aborted (body cfg creds nodeId) = false)
      by exact (f_equal (fun t => t.1.2) Hl).
    rewrite He, Hab in *. by cbn. }
  revert H0. generalize (body cfg creds nodeId).
  induction events as [|e events IH]; intros s [Hsc Hab]; [exact Hsc|].
  rewrite run_cons. by apply IH, signals_step.
Qed.

End LifecycleProperties.

Section RefreshProperties.
Context `{endpoints : EndpointTable}.
Implicit Types (self s : Node) (l r p : nat) (e : Event).

(** [refresh] calls [getAuthCookie(true)], which never answers from the
    cache: the promise is pending when [refresh] returns. *)
Lemma refresh_unfold init s :
  refresh init s
  = authenticateWithRetry (length (logins s))
      (set_logins (logins s ++
         [{| ll_promise := Pending; ll_then := ThenRefresh init;
             ll_phase := Idle |}]) s).
Proof.
  unfold refresh. rewrite getAuthCookie_login by (by right).
  unfold login_promise, authenticateWithRetry. fields.
  by rewrite alter_last, lookup_last.
Qed.

(** ** What sets [initialized] and the bootstrap *)

Lemma getAuthCookie_cache regenerate k s :
  cache (getAuthCookie regenerate k s).2 = cache s.
Proof. unfold getAuthCookie. by case_match. Qed.

Lemma sendRequest_cache r value s : cache (sendRequest r value s) = cache s.
Proof. unfold sendRequest. by case_match. Qed.

Lemma axiosRequest_cache r s : cache (axiosRequest r s) = cache s.
Proof.
  unfold axiosRequest.
  pose proof (getAuthCookie_cache None (ThenAxiosRequest r) s) as H.
  destruct (getAuthCookie None (ThenAxiosRequest r) s) as [p s1]. cbn in H.
  repeat case_match; rewrite ?sendRequest_cache; exact H.
Qed.

Lemma request_cache nodeId endpoint method body rt k s :
  cache (request nodeId endpoint method body rt k s).2 = cache s.
Proof.
  unfold request. cbn [snd]. rewrite axiosRequest_cache.
  by repeat case_match.
Qed.

Lemma cookie_then_cache k value s :
  bootstrapObject (cookie_then k value s) = bootstrapObject s
  /\ (initialized (cookie_then k value s) = initialized s
      \/ initialized (cookie_then k value s) = true).
Proof.
  destruct k as [|init|r]; unfold cookie_then.
  - by split; [|left].
  - unfold getBootstrap.
    set (s1 := if bool_decide (init = Some true) then _ else _).
    pose proof (request_cache (id s1) (Some bootstrapURI) (Some "GET") None
                  (Some "json") RequestBootstrap s1) as H.
    apply (f_equal fst) in H as Hi. apply (f_equal snd) in H as Hb.
    cbn [fst snd cache] in Hi, Hb. rewrite Hi, Hb. unfold s1.
    case_bool_decide; split; try done; [by right|by left].
  - pose proof (sendRequest_cache r value s) as H.
    apply (f_equal fst) in H as Hi. apply (f_equal snd) in H as Hb.
    by split; [|left].
Qed.

Lemma settle_cache r o s :
  initialized (settle r o s) = initialized s
  /\ (bootstrapObject (settle r o s) = bootstrapObject s
      \/ exists res, o = Resolved res
                     /\ bootstrapObject (settle r o s) = Some res).
Proof.
  unfold settle, request_then.
  repeat case_match; subst; split; try done; try by left.
  right. by eexists.
Qed.

Lemma onLoginSettled_cache l o s :
  bootstrapObject (onLoginSettled l o s) = bootstrapObject s
  /\ (initialized (onLoginSettled l o s) = initialized s
      \/ initialized (onLoginSettled l o s) = true
         /\ login_succeeded (LoginSettled l o)).
Proof.
  unfold onLoginSettled. destruct o as [response|reason].
  - destruct (status response =? 200)%Z eqn:Hst; [|by split; [|left]].
    apply Z.eqb_eq in Hst. unfold resolveCookie.
    match goal with |- context [logins ?s0 !! l] => set (s1 := s0) end.
    assert (Hs1 : cache s1 = cache s) by done.
    apply (f_equal fst) in Hs1 as Hi1. apply (f_equal snd) in Hs1 as Hb1.
    cbn [fst snd cache] in Hi1, Hb1.
    destruct (logins s1 !! l) as [loop|]; [|by split; [|left]].
    destruct (ll_promise loop); try by split; [|left].
    match goal with |- context [cookie_then ?k ?v ?s0] =>
      destruct (cookie_then_cache k v s0) as [Hb [Hi|Hi]] end.
    + split; [by rewrite Hb|left; by rewrite Hi].
    + split; [by rewrite Hb|right; by split].
  - by case_match; split; [|left| |left].
Qed.

Lemma onRequestSettled_cache r o s :
  initialized (onRequestSettled r o s) = initialized s
  /\ (bootstrapObject (onRequestSettled r o s) = bootstrapObject s
      \/ exists b, fulfilled_with b (RequestSettled r o)
                   /\ bootstrapObject (onRequestSettled r o s) = Some b).
Proof.
  unfold onRequestSettled. destruct o as [response|error].
  - destruct (settle_cache r (Resolved (data response))
                (alter_request (set_rq_phase RIdle) r s)) as [Hi [Hb|Hb]].
    + by split; [|left].
    + destruct Hb as (res & Heq & Hb). injection Heq as <-.
      split; [done|]. right. by exists (data response).
  - set (s1 := match error with HttpError _ _ => _ | _ => _ end).
    assert (Hs1 : cache s1 = cache s).
    { unfold s1. destruct error; try done. by case_match. }
    destruct (settle_cache r (Rejected error) s1) as [Hi [Hb|Hb]].
    + apply (f_equal fst) in Hs1 as H1. apply (f_equal snd) in Hs1 as H2.
      cbn [fst snd cache] in H1, H2. split; [congruence|left; congruence].
    + by destruct Hb as (res & Heq & _).
Qed.

Lemma step_cache s e :
  (initialized (step s e) = initialized s
   \/ initialized (step s e) = true /\ login_succeeded e)
  /\ (bootstrapObject (step s e) = bootstrapObject s
      \/ exists b, fulfilled_with b e /\ bootstrapObject (step s e) = Some b).
Proof.
  destruct e as [regenerate|nodeId endpoint method body rt| |l o|r o|task|];
    cbn [step].
  - pose proof (getAuthCookie_cache regenerate ThenCaller s) as H.
    apply (f_equal fst) in H as H1. apply (f_equal snd) in H as H2.
    split; by left.
  - pose proof (request_cache nodeId endpoint method body rt RequestCaller s)
      as H.
    apply (f_equal fst) in H as H1. apply (f_equal snd) in H as H2.
    split; by left.
  - case_match; [rewrite refresh_unfold|]; split; by left.
  - destruct (login_phase l s) as [[| |d]|]; try (split; by left).
    destruct (onLoginSettled_cache l o s) as [Hb Hi]. split; [exact Hi|by left].
  - destruct (request_phase r s) as [[| | |d]|]; try (split; by left).
    destruct (onRequestSettled_cache r o s) as [Hi Hb].
    split; [by left|exact Hb].
  - destruct task as [l|r].
    + destruct (login_phase l s) as [[| |d]|]; split; by left.
    + destruct (request_phase r s) as [[| | |d]|]; try (split; by left).
      pose proof (axiosRequest_cache r s) as H.
      apply (f_equal fst) in H as H1. apply (f_equal snd) in H as H2.
      split; by left.
  - split; by left.
Qed.

Lemma run_snoc s (events : list Event) e :
  run s (events ++ [e]) = step (run s events) e.
Proof. by rewrite run_app. Qed.

Lemma body_cache cfg creds nodeId :
  cache (body cfg creds nodeId) = (false, None).
Proof. unfold body. by rewrite refresh_unfold. Qed.

(** X6.  The bootstrap the admin endpoint hands out is the body of a fulfilled
    request: when it answers 200, the body it sends is the body some request
    of the run was fulfilled with, and as long as no request has been
    fulfilled it answers 501.  A request that is rejected, and a close, leave
    the answer of the endpoint as it was. *)
Theorem bootstrap_comes_from_a_fulfilled_request cfg creds nodeId
    (events : list Event) :
  let s := run (body cfg creds nodeId) events in
  (forall b, adminBootstrap s = (200, Some b) ->
     exists e, e ∈ events /\ fulfilled_with b e)
  /\ ((forall e b, e ∈ events -> ~ fulfilled_with b e) ->
      adminBootstrap s = (501, None))
  /\ (forall r error,
        adminBootstrap (step s (RequestSettled r (RejectedWith error)))
        = adminBootstrap s)
  /\ adminBootstrap (step s Close) = adminBootstrap s.
Proof.
  intros s.
  assert (Hprov : forall b, bootstrapObject s = Some b ->
                    exists e, e ∈ events /\ fulfilled_with b e).
  { unfold s. pose proof (body_cache cfg creds nodeId) as H0.
    apply (f_equal snd) in H0. cbn [snd cache] in H0.
    revert H0. generalize (body cfg creds nodeId).
    induction events as [|e events IH] using rev_ind; intros s0 H0 b Hb.
    - cbn in Hb. congruence.
    - rewrite run_snoc in Hb.
      destruct (step_cache (run s0 events) e) as [_ [Hsame|(b' & He & Hnew)]].
      + rewrite Hsame in Hb. destruct (IH s0 H0 b Hb) as (e' & Hin & He').
        exists e'. split; [|done]. apply elem_of_app. by left.
      + rewrite Hnew in Hb. injection Hb as <-.
        exists e. split; [|done]. apply elem_of_app. right.
        constructor. }
  split; [|split; [|split]].
  - intros b Hb. apply Hprov. unfold adminBootstrap in Hb.
    destruct (bootstrapObject s); congruence.
  - intros Hnone. unfold adminBootstrap.
    destruct (bootstrapObject s) as [b|] eqn:Hb; [|done].
    destruct (Hprov b eq_refl) as (e & Hin & He). by destruct (Hnone e b Hin).
  - intros r error. unfold adminBootstrap.
    destruct (step_cache s (RequestSettled r (RejectedWith error)))
      as [_ [->|(b & [] & _)]]. done.
  - done.
Qed.

(** X7.  The node is marked initialized only by the [then] of a login answered
    with status 200, and nothing takes the mark away again. *)
Theorem initialized_after_a_successful_login cfg creds nodeId
    (events more : list Event) :
  let s := run (body cfg creds nodeId) events in
  initialized (body cfg creds nodeId) = false
  /\ (initialized s = true -> exists e, e ∈ events /\ login_succeeded e)
  /\ (initialized s = true -> initialized (run s more) = true).
Proof.
  intros s. pose proof (body_cache cfg creds nodeId) as H0.
  apply (f_equal fst) in H0. cbn [fst cache] in H0.
  split; [exact H0|]. split.
  - unfold s. revert H0. generalize (body cfg creds nodeId).
    induction events as [|e events IH] using rev_ind; intros s0 H0 Hi.
    + cbn in Hi. congruence.
    + rewrite run_snoc in Hi.
      destruct (step_cache (run s0 events) e) as [[Hsame|[_ He]] _].
      * rewrite Hsame in Hi. destruct (IH s0 H0 Hi) as (e' & Hin & He').
        exists e'. split; [|done]. apply elem_of_app. by left.
      * exists e. split; [|done]. apply elem_of_app. right.
        constructor.
  - generalize s. induction more as [|e more IH]; intros s1 Hi; [exact Hi|].
    rewrite run_cons. apply IH.
    destruct (step_cache s1 e) as [[Hsame|[Htrue _]] _]; congruence.
Qed.

End RefreshProperties.

Section RefreshCycle.
Context `{endpoints : EndpointTable}.
Implicit Types (self s : Node) (l r p : nat) (e : Event).

(** The state after a tick of the interval. *)
Lemma refresh_tick s :
  refreshTimeout s = true ->
  step s RefreshTick
  = authenticateWithRetry (length (logins s))
      (set_logins (logins s ++
         [{| ll_promise := Pending; ll_then := ThenRefresh None;
             ll_phase := Idle |}]) s).
Proof. intros Hrt. cbn [step]. rewrite Hrt. apply refresh_unfold. Qed.

(** The state after the login of a tick was answered with status 200. *)
Lemma refresh_login_answered s response :
  refreshTimeout s = true ->
  status response = 200 ->
  let s1 := step s RefreshTick in
  step s1 (LoginSettled (length (logins s)) (Fulfilled response))
  = getBootstrap
      (set_authenticated true (set_authCookie (set_cookie response ≫= head)
         (set_logins (logins s ++
            [{| ll_promise := Resolved (set_cookie response ≫= head);
                ll_then := ThenRefresh None; ll_phase := Idle |}]) s1))).
Proof.
  intros Hrt Hst s1. unfold s1. rewrite (refresh_tick s Hrt). clear s1.
  cbn [step]. unfold login_phase, authenticateWithRetry. fields.
  rewrite alter_last, lookup_last. fields.
  unfold onLoginSettled. rewrite Hst, Z.eqb_refl.
  unfold resolveCookie. fields. rewrite !alter_last, lookup_last. fields.
  unfold cookie_then. rewrite bool_decide_eq_false_2 by done.
  f_equal. unfold alter_login. fields. by rewrite !alter_last.
Qed.

(** The bootstrap request as [getBootstrap] records it when a cookie is
    stored. *)
Lemma getBootstrap_cached s :
  truthy (authCookie s) = true ->
  requests (getBootstrap s) !! length (requests s)
  = Some {| rq_nodeId := id s;
            rq_url := urlBuilder s (Some bootstrapURI);
            rq_method := Some "GET"; rq_data := None;
            rq_responseType := Some "json";
            rq_promise := Pending; rq_then := RequestBootstrap;
            rq_phase := RInFlight |}
  /\ effects (getBootstrap s)
     = effects s ++ [AxiosRequest (urlBuilder s (Some bootstrapURI))
                       (Some "GET") None
                       (default EmptyString (authCookie s)) (id s)
                       (Some "json")].
Proof.
  intros Ht. unfold getBootstrap, request.
  change (truthy (Some bootstrapURI)) with true.
  change (truthy (Some "GET")) with true. cbn [snd].
  rewrite axiosRequest_cached by exact Ht.
  unfold sendRequest. fields. rewrite lookup_last. fields.
  by rewrite alter_last, lookup_last.
Qed.

(** The [then] of [getBootstrap] when the request is fulfilled. *)
Lemma bootstrap_fulfilled s r q answer :
  requests s !! r = Some q -> rq_phase q = RInFlight ->
  rq_promise q = Pending -> rq_then q = RequestBootstrap ->
  let s' := step s (RequestSettled r (Fulfilled answer)) in
  bootstrapObject s' = Some (data answer)
  /\ effects s' = effects s ++ [Emit "NRCHKB:UNIFIOS:BOOTSTRAP"].
Proof.
  intros Hr Hph Hpr Hk. cbn zeta. cbn [step]. unfold request_phase.
  rewrite Hr. cbn [fmap option_fmap option_map]. rewrite Hph.
  unfold onRequestSettled, settle. unfold alter_request at 1 3. fields.
  rewrite list_lookup_alter_eq, Hr. fields. rewrite Hpr, Hk.
  by unfold request_then.
Qed.

(** X8.  The refresh cycle.  A tick of the 45 minute interval logs in again
    although a cookie may be stored; when that login is answered with status
    200 and a cookie, the cookie is stored and the bootstrap is requested
    with it (GET, json, the node's id as request id); when that request is
    fulfilled its body becomes the bootstrap and the bootstrap event is
    emitted.  The periodic refresh does not mark the node initialized. *)
Theorem refresh_cycle s response c answer :
  refreshTimeout s = true ->
  status response = 200 ->
  set_cookie response ≫= head = Some c ->
  truthy (Some c) = true ->
  let s1 := step s RefreshTick in
  let s2 := step s1 (LoginSettled (length (logins s)) (Fulfilled response)) in
  let s3 := step s2 (RequestSettled (length (requests s)) (Fulfilled answer)) in
  effects s1
  = effects s ++ [LoginPost (loginUrl s) (username (credentials s))
                    (password (credentials s)) (aborted s)]
  /\ effects s2
     = effects s1 ++ [AxiosRequest (urlBuilder s (Some bootstrapURI))
                        (Some "GET") None c (id s) (Some "json")]
  /\ authCookie s2 = Some c
  /\ authenticated s2 = true
  /\ initialized s2 = initialized s
  /\ bootstrapObject s3 = Some (data answer)
  /\ effects s3 = effects s2 ++ [Emit "NRCHKB:UNIFIOS:BOOTSTRAP"].
Proof.
  intros Hrt Hst Hc Ht s1 s2 s3.
  pose proof (refresh_tick s Hrt) as E1. fold s1 in E1.
  pose proof (refresh_login_answered s response Hrt Hst) as E2.
  cbn zeta in E2. fold s1 s2 in E2. rewrite Hc in E2.
  clearbody s1. set (sa := set_authenticated _ _) in E2.
  assert (Hsa : config sa = config s /\ id sa = id s
                /\ authCookie sa = Some c /\ initialized sa = initialized s
                /\ requests sa = requests s /\ effects sa = effects s1).
  { unfold sa. fields. rewrite E1. unfold authenticateWithRetry. by fields. }
  destruct Hsa as (Hcfg & Hid & Hck & Hini & Hrq & Hef).
  assert (Hta : truthy (authCookie sa) = true) by (by rewrite Hck).
  destruct (getBootstrap_cached sa Hta) as [Hr He].
  rewrite <- E2, Hrq, Hid, (urlBuilder_config _ _ _ Hcfg) in Hr.
  rewrite <- E2, Hid, Hck, Hef, (urlBuilder_config _ _ _ Hcfg) in He.
  pose proof (getBootstrap_auth sa) as Ha. rewrite <- E2 in Ha.
  pose proof (request_cache (id sa) (Some bootstrapURI) (Some "GET") None
                (Some "json") RequestBootstrap sa) as Hca.
  fold (getBootstrap sa) in Hca. rewrite <- E2 in Hca.
  clearbody s2. clear E2.
  split; [by rewrite E1|]. split; [exact He|].
  split; [rewrite <- Hck; exact (f_equal snd Ha)|].
  split; [exact (f_equal fst Ha)|].
  split; [rewrite <- Hini; exact (f_equal fst Hca)|].
  exact (bootstrap_fulfilled s2 _ _ answer Hr eq_refl eq_refl eq_refl).
Qed.

End RefreshCycle.

Section RequestOutcome.
Context `{endpoints : EndpointTable}.
Implicit Types (self s : Node) (l r p : nat) (e : Event).

Lemma request_lookup_alter (f : RequestLoop -> RequestLoop) r s q :
  requests s !! r = Some q ->
  requests (alter_request f r s) !! r = Some (f q).
Proof.
  intros Hr. unfold alter_request. fields.
  by rewrite list_lookup_alter_eq, Hr.
Qed.

(** [settle] on a pending promise whose request is idle. *)
Lemma settle_pending r o s q :
  requests s !! r = Some q -> rq_promise q = Pending ->
  settle r o s
  = request_then (rq_then q) o (alter_request (set_rq_promise o) r s).
Proof. intros Hr Hp. unfold settle. by rewrite Hr, Hp. Qed.

Lemma request_then_frame k (o : PromiseState UnifiResponse) s :
  requests (request_then k o s) = requests s
  /\ auth_state (request_then k o s) = auth_state s
  /\ (forall error, o = Rejected error -> effects (request_then k o s) = effects s).
Proof.
  unfold request_then. destruct k, o; repeat split; try done.
Qed.

(** X9.  The answers of a request other than HTTP 401.  A request in flight
    that is fulfilled resolves its promise with the body of the response;
    one that fails with anything but an [HttpError] of status 401 rejects
    its promise with that error.  In both cases the stored cookie and the
    authenticated flag stay as they are and no retry is scheduled: nothing
    is in flight afterwards, a failure has no effect at all, and a later
    answer or timer for that request changes nothing. *)
Theorem request_settles_without_retry s r q o :
  requests s !! r = Some q ->
  rq_phase q = RInFlight ->
  rq_promise q = Pending ->
  (forall message, o <> RejectedWith (HttpError 401 message)) ->
  let s' := step s (RequestSettled r o) in
  request_promise r s'
  = Some (match o with
          | Fulfilled response => Resolved (data response)
          | RejectedWith error => Rejected error
          end)
  /\ request_phase r s' = Some RIdle
  /\ auth_state s' = auth_state s
  /\ (forall error, o = RejectedWith error -> effects s' = effects s)
  /\ (forall o', step s' (RequestSettled r o') = s')
  /\ step s' (TimerFires (TaskAxiosRequest r)) = s'.
Proof.
  intros Hr Hph Hpr Hne s'.
  set (out := match o with
              | Fulfilled response => Resolved (data response)
              | RejectedWith error => Rejected error
              end).
  assert (Es : s' = request_then (rq_then q) out
                      (alter_request (set_rq_promise out) r
                         (alter_request (set_rq_phase RIdle) r s))).
  { unfold s'. cbn [step]. unfold request_phase. rewrite Hr. fields.
    rewrite Hph. unfold onRequestSettled.
    pose proof (request_lookup_alter (set_rq_phase RIdle) r s q Hr) as Hr1.
    destruct o as [response|error].
    - by rewrite (settle_pending _ _ _ _ Hr1 Hpr).
    - assert (Hidle : match error with
                      | HttpError st _ =>
                          if (st =? 401)%Z
                          then emit (SetTimeout (TaskAxiosRequest r)
                                 (retryDelay (set_authCookie None
                                    (set_authenticated false s))))
                                 (alter_request (set_rq_phase (RScheduled
                                    (retryDelay (set_authCookie None
                                       (set_authenticated false s))))) r
                                    (set_authCookie None
                                       (set_authenticated false s)))
                          else alter_request (set_rq_phase RIdle) r s
                      | _ => alter_request (set_rq_phase RIdle) r s
                      end = alter_request (set_rq_phase RIdle) r s).
      { destruct error as [m|st m|]; try done.
        destruct (st =? 401)%Z eqn:Hst; [|done].
        apply Z.eqb_eq in Hst. subst st. by destruct (Hne m). }
      cbn zeta. rewrite Hidle. by rewrite (settle_pending _ _ _ _ Hr1 Hpr). }
  clearbody s'. subst s'.
  set (s1 := alter_request (set_rq_promise out) r
               (alter_request (set_rq_phase RIdle) r s)).
  assert (Hr1 : requests s1 !! r
                = Some (set_rq_promise out (set_rq_phase RIdle q))).
  { unfold s1. apply request_lookup_alter. by apply request_lookup_alter. }
  destruct (request_then_frame (rq_then q) out s1) as (Hrq & Hau & Hef).
  assert (Hidle : request_phase r (request_then (rq_then q) out s1)
                  = Some RIdle).
  { unfold request_phase. by rewrite Hrq, Hr1. }
  split; [unfold request_promise; by rewrite Hrq, Hr1|].
  split; [exact Hidle|].
  split; [by rewrite Hau|].
  split.
  { intros error ->. by rewrite (Hef error eq_refl). }
  split.
  - intros o'. cbn [step]. by rewrite Hidle.
  - cbn [step]. by rewrite Hidle.
Qed.

End RequestOutcome.

(** * Further properties of the shared channel *)

Section RegistryProperties.
Implicit Types (c : SharedProtectWebSocket) (n m : string) (i : Interest).

Lemma set_callbacks_id c : set_callbacks (callbacks c) c = c.
Proof. by destruct c. Qed.


(** X10.  [degisterInterest] deletes one key: the key is free afterwards, the
    other keys keep their registrations, deleting a key that is not
    registered changes nothing (and raises nothing), and so does deleting a
    key twice. *)
Theorem degisterInterest_removes n c :
  callbacks (degisterInterest n c) !! n = None
  /\ (forall m, m <> n ->
        callbacks (degisterInterest n c) !! m = callbacks c !! m)
  /\ (callbacks c !! n = None -> degisterInterest n c = c)
  /\ degisterInterest n (degisterInterest n c) = degisterInterest n c
  /\ WS (degisterInterest n c) = WS c
  /\ size (callbacks (degisterInterest n c))
     = (size (callbacks c)
        - match callbacks c !! n with Some _ => 1 | None => 0 end)%nat.
Proof.
  unfold degisterInterest.
  split; [apply lookup_delete_eq|].
  split; [by intros m Hm; apply lookup_delete_ne|].
  split.
  { intros Hn. rewrite delete_id by done. apply set_callbacks_id. }
  split.
  { unfold set_callbacks. cbn. f_equal. apply delete_id, lookup_delete_eq. }
  split; [done|]. cbn [callbacks set_callbacks].
  rewrite map_size_delete. destruct (callbacks c !! n); cbn; lia.
Qed.

(** X11.  Registering a key that was free and deleting it again gives the channel
    back as it was; registering over a deleted key is registering. *)
Theorem register_degister_round_trip n i c :
  (callbacks c !! n = None ->
     degisterInterest n (registerInterest n i c) = c)
  /\ registerInterest n i (degisterInterest n c) = registerInterest n i c.
Proof.
  unfold degisterInterest, registerInterest, set_callbacks. cbn. split.
  - intros Hn. destruct c as [b cb ws cfg]. cbn in *. f_equal.
    by rewrite delete_insert_id.
  - f_equal. apply insert_delete_eq.
Qed.

Lemma apply_op_lookup c op n :
  callbacks (apply_op c op) !! n
  = last_registration [op] n (callbacks c !! n).
Proof.
  destruct op as [m i|m]; cbn.
  - rewrite lookup_insert. by destruct (decide (m = n)).
  - rewrite lookup_delete. by destruct (decide (m = n)).
Qed.

Lemma apply_ops_lookup (ops : list RegistryOp) c n :
  callbacks (apply_ops c ops) !! n = last_registration ops n (callbacks c !! n)
  /\ WS (apply_ops c ops) = WS c
  /\ bootstrap (apply_ops c ops) = bootstrap c.
Proof.
  revert c. induction ops as [|op ops IH]; intros c; [done|].
  cbn [apply_ops foldl]. fold (apply_ops (apply_op c op) ops).
  destruct (IH (apply_op c op)) as (H1 & H2 & H3).
  rewrite H1, H2, H3, apply_op_lookup.
  split; [|by destruct op]. by destruct op.
Qed.

(** X12.  A run of registrations and deletions leaves under every key what the
    last operation on that key put there; a key no operation touched keeps
    what it had.  The socket and the cursor are not touched. *)
Theorem registry_last_operation_wins (ops : list RegistryOp) c n :
  callbacks (apply_ops c ops) !! n = last_registration ops n (callbacks c !! n)
  /\ (Forall (fun op => match op with
                        | Register m _ | Degister m => m <> n
                        end) ops ->
      callbacks (apply_ops c ops) !! n = callbacks c !! n)
  /\ WS (apply_ops c ops) = WS c
  /\ bootstrap (apply_ops c ops) = bootstrap c.
Proof.
  destruct (apply_ops_lookup ops c n) as (H1 & H2 & H3).
  split; [exact H1|]. split; [|by split].
  intros Hall. rewrite H1. clear H1 H2 H3. generalize (callbacks c !! n).
  induction Hall as [|op ops Hop Hall IH]; intros start; [done|].
  destruct op as [m i|m]; cbn; rewrite decide_False by done; apply IH.
Qed.

End RegistryProperties.

Section StreamProperties.
Context `{endpoints : EndpointTable}.
Context {any : Type} `{decoders : Decoders any}.
Implicit Types (c : SharedProtectWebSocket) (v : any) (frame n : string).




(** X15.  [updateLastUpdateId] changes the cursor only: the open socket keeps the
    URL it was opened with and delivers frames as before, the registry is
    the same, and the next [Connect] opens its socket at the new cursor (a
    missing cursor is spelled "undefined") with the cookie it is given. *)
Theorem updateLastUpdateId_next_connect newBootstrap cookie c e :
  let c' := updateLastUpdateId newBootstrap c in
  WS c' = WS c
  /\ callbacks c' = callbacks c
  /\ (ws_emit (any := any) e c').2 = (ws_emit (any := any) e c).2
  /\ (Connect (any := any) cookie c').2
     = [NewWebSocket
          (protocol_webSocket +:+ controllerIp (Config c)
           +:+ "/proxy/protect/ws/updates?lastUpdateId="
           +:+ js_string (lastUpdateId newBootstrap)) cookie]
  /\ callbacks (Connect (any := any) cookie c').1 = callbacks c
  /\ connected (Connect (any := any) cookie c').1.
Proof.
  cbn zeta. split; [done|]. split; [done|]. split; [|split; [done|split]].
  - unfold ws_emit, updateLastUpdateId. cbn [WS set_bootstrap].
    destruct (WS c) as [ws|]; [|done].
    assert (Hl : forall h (c1 : SharedProtectWebSocket),
               (run_listener (any := any) h e (set_bootstrap newBootstrap c1)).2
               = (run_listener (any := any) h e c1).2).
    { intros [] c1. destruct e as [frame|reason|code]; try done.
      cbn. unfold onMessage, dispatch. cbn [callbacks set_bootstrap].
      destruct (JSON_parse frame); [done|].
      by destruct (decodeUpdatePacket frame). }
    assert (Hf : forall hs acc,
      (foldl (fun (a : SharedProtectWebSocket * list (WsEffect any))
                  (h : string * Listener) =>
                let r := run_listener h.2 e a.1 in (r.1, a.2 ++ r.2))
         (set_bootstrap newBootstrap c, acc) hs).2
      = (foldl (fun (a : SharedProtectWebSocket * list (WsEffect any))
                    (h : string * Listener) =>
                  let r := run_listener h.2 e a.1 in (r.1, a.2 ++ r.2))
           (c, acc) hs).2).
    { induction hs as [|h hs IH]; intros acc; [done|].
      cbn [foldl fst snd]. rewrite !run_listener_channel, Hl. apply IH. }
    destruct (filter _ (ws_on ws)) as [|h hs]; [by destruct e|].
    destruct e; apply Hf.
  - done.
  - apply (Connect_connected cookie).
Qed.


End StreamProperties.

(** * The sample installation *)

#[local] Existing Instance sampleEndpoints.
#[local] Existing Instance sampleDecoders.

(** C1.  A request of the authenticated sample node is answered with 401.
    The cookie is cleared and one resend is scheduled with the variant's
    delay, but the [reject(error)] after the [if] runs as well: the caller's
    promise is rejected with the 401.  The resend logs in again, goes out
    with the new cookie and is answered with 200, and its [resolve] finds the
    promise already settled. *)
Theorem unauthorized_rejection_reaches_caller :
  let s0 :=
    step sampleAuthed
      (CallRequest "n2" (Some "/api/x") (Some "GET") None (Some "json")) in
  let s1 := step s0 (RequestSettled 1 unauthorized) in
  let s2 :=
    run s1 [TimerFires (TaskAxiosRequest 1); LoginSettled 3 (ok (Some ["B"]));
            RequestSettled 1 (ok None)] in
  request_promise 1 s0 = Some Pending
  /\ auth_state s1 = (false, None)
  /\ effects s1 = effects s0 ++ [SetTimeout (TaskAxiosRequest 1) 5000]
  /\ request_promise 1 s1 = Some (Rejected (HttpError 401 "Unauthorized"))
  /\ effects s2
     = effects s1
       ++ [LoginPost "https://192.168.1.1/api/auth/login" "admin" "secret" false;
           AxiosRequest "https://192.168.1.1/api/x" (Some "GET") None "B" "n2"
             (Some "json")]
  /\ request_phase 1 s2 = Some RIdle
  /\ request_promise 1 s2 = Some (Rejected (HttpError 401 "Unauthorized")).
Proof. vm_compute. repeat split. Qed.

(** C2.  The sample node is closed while its bootstrap request is in flight.
    The request is then answered with 401: the [catch] of Axios.request does
    not look at [self.stopped] and sets the resend timer; the timer fires and
    the resend makes a login call (with the aborted signal).  A login retry
    that was scheduled before the close is not cancelled by it either and
    makes its login call when it fires.  The [catch] of the login call, which
    does test [self.stopped], schedules nothing after the close. *)
Theorem retries_continue_after_close :
  let s0 := step sampleAuthed Close in
  let s1 := step s0 (RequestSettled 0 unauthorized) in
  let s2 := step s1 (TimerFires (TaskAxiosRequest 0)) in
  let t0 :=
    run sampleNode [LoginSettled 0 (RejectedWith (OtherError "ECONNREFUSED"));
                    Close] in
  let t1 := step t0 (TimerFires (TaskAuthenticate 0)) in
  let t2 := step t1 (LoginSettled 0 (RejectedWith (OtherError "AbortError"))) in
  stopped s0 = true
  /\ effects s1 = effects s0 ++ [SetTimeout (TaskAxiosRequest 0) 5000]
  /\ effects s2
     = effects s1
       ++ [LoginPost "https://192.168.1.1/api/auth/login" "admin" "secret" true]
  /\ stopped t0 = true
  /\ effects t1
     = effects t0
       ++ [LoginPost "https://192.168.1.1/api/auth/login" "admin" "secret" true]
  /\ effects t2 = effects t1.
Proof. vm_compute. repeat split. Qed.

(** C5.  The refresh of the authenticated sample node makes its login call
    (loop 2), which is fulfilled with status 204.  The [then] handler does
    nothing for a status other than 200 and the [catch] handler does not run:
    the cookie stays, no timer is set, the promise stays pending, and no
    later callback of this loop exists.  The same call rejected is retried. *)
Theorem login_fulfilled_without_200_stalls :
  let s0 := step sampleAuthed RefreshTick in
  let s1 :=
    step s0
      (LoginSettled 2
         (Fulfilled
            {| status := 204; set_cookie := None; data := EmptyString |})) in
  let s1' := step s0 (LoginSettled 2 (RejectedWith (OtherError "ETIMEDOUT"))) in
  login_phase 2 s0 = Some InFlight
  /\ stopped s0 = false
  /\ auth_state s1 = (true, Some "A")
  /\ effects s1 = effects s0
  /\ login_phase 2 s1 = Some Idle
  /\ login_promise 2 s1 = Some Pending
  /\ step s1 (TimerFires (TaskAuthenticate 2)) = s1
  /\ auth_state s1' = (false, None)
  /\ effects s1' = effects s0 ++ [SetTimeout (TaskAuthenticate 2) 5000].
Proof. vm_compute. repeat split. Qed.

(** Against C4 as stated: two calls of [getAuthCookie(false)] in a row on the
    freshly constructed node, where no login has answered yet, make one login
    call each, and each resolves with the cookie of its own login. *)
Lemma calls_before_the_answer_login_twice :
  let s :=
    run sampleNode [CallGetAuthCookie (Some false);
                    CallGetAuthCookie (Some false);
                    LoginSettled 1 (ok (Some ["A"]));
                    LoginSettled 2 (ok (Some ["B"]))] in
  login_calls s = (login_calls sampleNode + 2)%nat
  /\ login_promise 1 s = Some (Resolved (Some "A"))
  /\ login_promise 2 s = Some (Resolved (Some "B")).
Proof. vm_compute. repeat split. Qed.


(** Against C8 as stated: a login answered with status 200 and no
    set-cookie header leaves the node authenticated without a cookie. *)
Lemma bare_success_breaks_two_valued :
  ~ two_valued (run sampleNode [LoginSettled 0 (ok None)]).
Proof. intros [H _]. specialize (H eq_refl). by destruct H. Qed.

(** Three calls on the authenticated sample node make no login call. *)
Lemma getAuthCookie_caching_example :
  truthy (authCookie sampleAuthed) = true
  /\ login_calls
       (run sampleAuthed (replicate 3 (CallGetAuthCookie (Some false))))
     = login_calls sampleAuthed.
Proof.
  split; [reflexivity|].
  exact (proj1 (proj1 (proj2 (getAuthCookie_caching sampleAuthed))
                  3%nat eq_refl)).
Defined.

(** After a login answered with a cookie the sample node is two-valued. *)
Lemma credential_state_invariant_example :
  two_valued (run sampleNode [LoginSettled 0 (ok (Some ["A"]))]).
Proof.
  apply (credential_state_invariant sampleConfig sampleCredentials "n1"
           [LoginSettled 0 (ok (Some ["A"]))]).
  intros e He. apply list_elem_of_singleton in He as ->.
  cbn. intros [_ H]. discriminate H.
Defined.



(** Registering "cam" again leaves the registration of "bell" alone. *)
Lemma registerInterest_upsert_example :
  callbacks
    (registerInterest "cam" {| deviceId := "d9"; callback := 9%nat |}
       sampleChannel) !! "bell"
  = callbacks sampleChannel !! "bell".
Proof.
  apply (registerInterest_upsert "cam"
           {| deviceId := "d9"; callback := 9%nat |}
           {| deviceId := "d9"; callback := 9%nat |} sampleChannel).
  discriminate.
Defined.

(** A request with the empty endpoint returns a pending promise. *)
Lemma request_drops_argument_checks_example :
  truthy (Some EmptyString) = false
  /\ request_promise 1
       (request "n2" (Some EmptyString) (Some "GET") None None RequestCaller
          sampleAuthed).2
     = Some Pending.
Proof.
  split; [reflexivity|].
  apply (request_drops_argument_checks "n2" (Some EmptyString) (Some "GET")
           None None RequestCaller sampleAuthed).
  left. reflexivity.
Defined.

(** ** The further properties on the sample node and channel *)


(** A login call made after the close carries the aborted signal. *)
Lemma login_calls_carry_the_signal_example :
  true
  = existsb is_abort
      [SetInterval 2700000;
       LoginPost "https://192.168.1.1/api/auth/login" "admin" "secret" false;
       ClearTimeout; AbortSignal;
       LogoutPost "https://192.168.1.1/api/auth/logout"].
Proof.
  exact (login_calls_carry_the_signal sampleConfig sampleCredentials "n1"
           [Close; CallGetAuthCookie (Some true)]
           [SetInterval 2700000;
            LoginPost "https://192.168.1.1/api/auth/login" "admin" "secret"
              false;
            ClearTimeout; AbortSignal;
            LogoutPost "https://192.168.1.1/api/auth/logout"]
           [] "https://192.168.1.1/api/auth/login" "admin" "secret" true
           eq_refl).
Defined.

(** The bootstrap of the sample node is the body its bootstrap request was
    fulfilled with. *)
Lemma bootstrap_comes_from_a_fulfilled_request_example :
  exists e,
    e ∈ [LoginSettled 0 (ok (Some ["A"])); RequestSettled 0 (ok None)]
    /\ fulfilled_with "{}" e.
Proof.
  exact (proj1 (bootstrap_comes_from_a_fulfilled_request sampleConfig
                  sampleCredentials "n1"
                  [LoginSettled 0 (ok (Some ["A"]));
                   RequestSettled 0 (ok None)])
           "{}" eq_refl).
Defined.

(** The sample node is initialized by its first login. *)
Lemma initialized_after_a_successful_login_example :
  exists e, e ∈ [LoginSettled 0 (ok (Some ["A"]))] /\ login_succeeded e.
Proof.
  exact (proj1 (proj2 (initialized_after_a_successful_login sampleConfig
                         sampleCredentials "n1"
                         [LoginSettled 0 (ok (Some ["A"]))] []))
           eq_refl).
Defined.

(** A refresh of the authenticated sample node: the new cookie "B" is
    stored and the bootstrap is replaced. *)
Lemma refresh_cycle_example :
  let s1 := step sampleAuthed RefreshTick in
  let s2 := step s1 (LoginSettled (length (logins sampleAuthed))
                       (Fulfilled {| status := 200; set_cookie := Some ["B"];
                                     data := "{}" |})) in
  let s3 := step s2 (RequestSettled (length (requests sampleAuthed))
                       (Fulfilled {| status := 200; set_cookie := None;
                                     data := "{boot}" |})) in
  authCookie s2 = Some "B" /\ bootstrapObject s3 = Some "{boot}".
Proof.
  pose proof (refresh_cycle sampleAuthed
                {| status := 200; set_cookie := Some ["B"]; data := "{}" |}
                "B"
                {| status := 200; set_cookie := None; data := "{boot}" |}
                eq_refl eq_refl eq_refl eq_refl) as H.
  exact (conj (proj1 (proj2 (proj2 H)))
              (proj1 (proj2 (proj2 (proj2 (proj2 (proj2 H))))))).
Defined.

(** The bootstrap request of the sample node failing with status 500 is
    rejected with that error. *)
Lemma request_settles_without_retry_example :
  request_promise 0
    (step sampleAuthed
       (RequestSettled 0 (RejectedWith (HttpError 500 "Server Error"))))
  = Some (Rejected (HttpError 500 "Server Error")).
Proof.
  refine (proj1 (request_settles_without_retry sampleAuthed 0
                   {| rq_nodeId := "n1";
                      rq_url :=
                        "https://192.168.1.1/proxy/protect/api/bootstrap";
                      rq_method := Some "GET"; rq_data := None;
                      rq_responseType := Some "json"; rq_promise := Pending;
                      rq_then := RequestBootstrap; rq_phase := RInFlight |}
                   (RejectedWith (HttpError 500 "Server Error"))
                   eq_refl eq_refl eq_refl _)).
  intros message H. discriminate H.
Defined.

(** Deleting a key the sample channel does not hold changes nothing. *)
Lemma degisterInterest_removes_example :
  degisterInterest "door" sampleChannel = sampleChannel.
Proof.
  exact (proj1 (proj2 (proj2 (degisterInterest_removes "door" sampleChannel)))
           eq_refl).
Defined.

(** Registering "door" and deleting it again gives the sample channel. *)
Lemma register_degister_round_trip_example :
  degisterInterest "door"
    (registerInterest "door" {| deviceId := "d3"; callback := 9%nat |}
       sampleChannel)
  = sampleChannel.
Proof.
  exact (proj1 (register_degister_round_trip "door"
                  {| deviceId := "d3"; callback := 9%nat |} sampleChannel)
           eq_refl).
Defined.

(** Operations on "door" leave the registration of "cam" alone. *)
Lemma registry_last_operation_wins_example :
  callbacks
    (apply_ops sampleChannel
       [Register "door" {| deviceId := "d3"; callback := 9%nat |};
        Degister "door"]) !! "cam"
  = callbacks sampleChannel !! "cam".
Proof.
  refine (proj1 (proj2 (registry_last_operation_wins
                          [Register "door"
                             {| deviceId := "d3"; callback := 9%nat |};
                           Degister "door"] sampleChannel "cam")) _).
  repeat constructor; discriminate.
Defined.



